(** * tbp.monty: motor system state and simulator contract

    A shallow embedding of
    [src/tbp/monty/frameworks/models/motor_system_state.py] and
    [src/tbp/monty/simulators/simulator.py].

    Python floats are never inspected by the code below, only moved from
    one container to another, so the development is parametric in the type
    [num] of numbers; the worked example instantiates it with [Q]. *)

From stdpp Require Import base option list strings.
From Stdlib Require Import QArith.

Set Default Proof Using "Type".
Local Set Warnings "-register-all".
Local Close Scope Q_scope.
Local Open Scope string_scope.
Local Open Scope list_scope.

(** ** Exceptions and the result monad *)

(** The Python exceptions the embedded code can raise. *)
Inductive error : Type :=
| TypeError
| AttributeError
| KeyError
| IndexError
| ValueError
| RuntimeError.

(** The outcome of a Python expression: a value, or a raised exception. *)
Inductive result (A : Type) : Type :=
| Return (x : A)
| Raise (e : error).
Arguments Return {A} x.
Arguments Raise {A} e.

Global Instance result_ret : MRet result := fun A x => Return x.
Global Instance result_bind : MBind result := fun A B f m =>
  match m with
  | Return x => f x
  | Raise e => Raise e
  end.
Global Instance result_fmap : FMap result := fun A B f m =>
  match m with
  | Return x => Return (f x)
  | Raise e => Raise e
  end.

(** A [for] loop whose body may raise: the accumulator [s] stands for the
    variables the body assigns to. *)
Fixpoint for_in {A S : Type} (xs : list A) (body : A -> S -> result S)
    (s : S) : result S :=
  match xs with
  | [] => Return s
  | x :: xs' => s' ← body x s; for_in xs' body s'
  end.

(** ** Python dictionaries

    A [dict] keeps its keys in insertion order, which is the order
    [keys()] iterates in.  A Python dictionary has no key twice; nothing
    below needs that, since an entry is only ever reached through
    [dict_get], which stops at the first. *)
Definition dict (V : Type) : Type := list (string * V).

(** Modelled from the spec: the agent and sensor identifiers, which the
    source imports from [abstract_monty_classes], a module that is not
    among the sources; they are dictionary keys, taken to be strings as the
    field names are. *)
Definition AgentID : Type := string.
Definition SensorID : Type := string.

Fixpoint dict_get {V : Type} (d : dict V) (k : string) : option V :=
  match d with
  | [] => None
  | (k', v) :: d' => if decide (k = k') then Some v else dict_get d' k
  end.

(** [d.keys()] *)
Definition dict_keys {V : Type} (d : dict V) : list string := map fst d.

(** [d[k]] *)
Definition dict_getitem {V : Type} (d : dict V) (k : string) : result V :=
  match dict_get d k with
  | Some v => Return v
  | None => Raise KeyError
  end.

(** [d[k] = v]: an existing key keeps its place, a new one goes last. *)
Fixpoint dict_set {V : Type} (d : dict V) (k : string) (v : V) : dict V :=
  match d with
  | [] => [(k, v)]
  | (k', v') :: d' =>
      if decide (k = k') then (k, v) :: d' else (k', v') :: dict_set d' k v
  end.

(** The body of a loop that stores [f k] under every key [k] it visits. *)
Definition store_under {V : Type} (f : string -> result V)
    (k : string) (acc : dict V) : result (dict V) :=
  v ← f k; mret (dict_set acc k v).

(** A loop over [d.keys()] that stores [g d[k]] under every key [k] of [d],
    starting from an empty dictionary. *)
Definition map_items {V W : Type} (g : V -> result W) (d : dict V)
    : result (dict W) :=
  for_in (dict_keys d) (store_under (fun k => dict_getitem d k ≫= g)) [].

(** Two outcomes agree when both are values related by [Q] or both are
    exceptions. *)
Definition result_rel {A : Type} (Q : A -> A -> Prop) (r1 r2 : result A) : Prop :=
  match r1, r2 with
  | Return x, Return y => Q x y
  | Raise _, Raise _ => True
  | _, _ => False
  end.

(** Python's [==] on dictionaries ignores the insertion order. *)
Definition dict_eq {V : Type} (R : V -> V -> Prop) (d1 d2 : dict V) : Prop :=
  forall k, option_Forall2 R (dict_get d1 k) (dict_get d2 k).

(** ** Values

    [pyobj] is what a field annotated [Any] may hold: the vector and
    quaternion objects the simulator produces, and the other shapes a
    caller can pass in their place. *)
Inductive pyobj (num : Type) : Type :=
| PNone                                  (* None *)
| PFloat (x : num)                       (* a float *)
| PSeq (l : list num)                    (* a list or tuple of floats *)
| PArray (l : list num)                  (* a one-dimensional numpy.ndarray *)
| PVector3 (x y z : num)                 (* magnum.Vector3 *)
| PQuat (w x y z : num).                 (* quaternion.quaternion *)
Arguments PNone {num}.
Arguments PFloat {num} x.
Arguments PSeq {num} l.
Arguments PArray {num} l.
Arguments PVector3 {num} x y z.
Arguments PQuat {num} w x y z.

(** [value] is what [convert_motor_state] builds: dict literals, the list
    built by [+], the array built by [np.array], and their elements. *)
Local Unset Elimination Schemes.
Inductive value (num : Type) : Type :=
| VNone
| VBool (b : bool)
| VFloat (x : num)
| VStr (s : string)
| VList (l : list (value num))
| VArray (l : list num)                  (* numpy.ndarray *)
| VDict (d : list (string * value num)).
Arguments VNone {num}.
Arguments VBool {num} b.
Arguments VFloat {num} x.
Arguments VStr {num} s.
Arguments VList {num} l.
Arguments VArray {num} l.
Arguments VDict {num} d.
Local Set Elimination Schemes.

(** ** The dataclasses *)

Module SensorState.
Record t (num : Type) : Type := mk {
  position : pyobj num;
  rotation : pyobj num
}.
Arguments mk {num} position rotation.
Arguments position {num} _.
Arguments rotation {num} _.
End SensorState.

Module AgentState.
Record t (num : Type) : Type := mk {
  sensors : dict (SensorState.t num);
  position : pyobj num;
  rotation : pyobj num;
  motor_only_step : bool
}.
Arguments mk {num} sensors position rotation motor_only_step.
Arguments sensors {num} _.
Arguments position {num} _.
Arguments rotation {num} _.
Arguments motor_only_step {num} _.

(** The generated [__init__]: [motor_only_step] is a keyword with a
    default, [None] stands for a call that does not pass it. *)
Definition init {num : Type} (sensors : dict (SensorState.t num))
    (position rotation : pyobj num) (motor_only_step : option bool) : t num :=
  mk sensors position rotation (default false motor_only_step).
End AgentState.

Definition ProprioceptiveState (num : Type) : Type := dict (AgentState.t num).
Definition MotorSystemState (num : Type) : Type := dict (AgentState.t num).

(** What the code needs of a pose to get through: a position that can be
    iterated, and a rotation with [real], [imag] and an [imag] that can be
    iterated. *)
Definition iterable {num : Type} (x : pyobj num) : bool :=
  match x with
  | PSeq _ | PArray _ | PVector3 _ _ _ => true
  | PNone | PFloat _ | PQuat _ _ _ _ => false
  end.

Definition decomposable {num : Type} (x : pyobj num) : bool :=
  match x with
  | PArray _ | PQuat _ _ _ _ => true
  | PNone | PFloat _ | PSeq _ | PVector3 _ _ _ => false
  end.

Section Canonicalization.
Context {num : Type}.
(** The float [0.0]. *)
Variable zero : num.

(** [list(x)]: iterates [x], a [TypeError] when it is not iterable. *)
Definition py_list (x : pyobj num) : result (list num) :=
  match x with
  | PNone => Raise TypeError
  | PFloat _ => Raise TypeError
  | PSeq l => Return l
  | PArray l => Return l
  | PVector3 x y z => Return [x; y; z]
  | PQuat _ _ _ _ => Raise TypeError
  end.

(** [x.real] *)
Definition attr_real (x : pyobj num) : result (value num) :=
  match x with
  | PFloat a => Return (VFloat a)
  | PArray l => Return (VArray l)
  | PQuat w _ _ _ => Return (VFloat w)
  | PNone | PSeq _ | PVector3 _ _ _ => Raise AttributeError
  end.

(** [x.imag] *)
Definition attr_imag (x : pyobj num) : result (pyobj num) :=
  match x with
  | PFloat _ => Return (PFloat zero)
  | PArray l => Return (PArray (map (fun _ => zero) l))
  | PQuat _ x y z => Return (PArray [x; y; z])
  | PNone | PSeq _ | PVector3 _ _ _ => Raise AttributeError
  end.

(** [np.array(l)] on a list of floats, where it cannot fail; a sequence
    of anything but floats is not a [pyobj]. *)
Definition np_array (l : list num) : value num := VArray l.

(** [MotorSystemState.convert_motor_state] *)
Definition convert_motor_state (self : MotorSystemState num)
    : result (dict (value num)) :=
  let state_copy : dict (value num) := [] in
  for_in (dict_keys self) (fun agent_id state_copy =>
    agent_state ← dict_getitem self agent_id;
    let sensors : dict (value num) := [] in
    sensors ← for_in (dict_keys (AgentState.sensors agent_state))
      (fun sensor_id sensors =>
        sensor_state ← dict_getitem (AgentState.sensors agent_state) sensor_id;
        position ← py_list (SensorState.position sensor_state);
        real ← attr_real (SensorState.rotation sensor_state);
        imag ← attr_imag (SensorState.rotation sensor_state);
        imag ← py_list imag;
        mret (dict_set sensors sensor_id (VDict [
          ("position", np_array position);
          ("rotation", VList ([real] ++ map VFloat imag))
        ])))
      sensors;
    position ← py_list (AgentState.position agent_state);
    real ← attr_real (AgentState.rotation agent_state);
    imag ← attr_imag (AgentState.rotation agent_state);
    imag ← py_list imag;
    mret (dict_set state_copy agent_id (VDict [
      ("position", np_array position);
      ("rotation", VList ([real] ++ map VFloat imag));
      ("sensors", VDict sensors)
    ])))
    state_copy.

(** *** The same, entry by entry

    What the two dict literals have in common, and the entry each loop
    body stores; [convert_motor_state] is shown below to compute these. *)
Definition pose_fields (position rotation : pyobj num)
    : result (dict (value num)) :=
  position ← py_list position;
  real ← attr_real rotation;
  imag ← attr_imag rotation;
  imag ← py_list imag;
  mret [("position", np_array position);
        ("rotation", VList ([real] ++ map VFloat imag))].

Definition sensor_entry (s : SensorState.t num) : result (value num) :=
  VDict <$> pose_fields (SensorState.position s) (SensorState.rotation s).

Definition sensors_entry (sensors : dict (SensorState.t num))
    : result (dict (value num)) :=
  map_items sensor_entry sensors.

Definition agent_entry (a : AgentState.t num) : result (value num) :=
  sensors ← sensors_entry (AgentState.sensors a);
  fields ← pose_fields (AgentState.position a) (AgentState.rotation a);
  mret (VDict (fields ++ [("sensors", VDict sensors)])).

(** The exception a pose makes the method raise, if any. *)
Definition pose_error (position rotation : pyobj num) : option error :=
  if iterable position then
    match rotation with
    | PNone | PSeq _ | PVector3 _ _ _ => Some AttributeError
    | PFloat _ => Some TypeError
    | PArray _ | PQuat _ _ _ _ => None
    end
  else Some TypeError.

End Canonicalization.

(** ** Well-formed poses

    The data model wants every position to be a 3-component vector and
    every rotation a quaternion. *)
Definition is_vector3 {num : Type} (x : pyobj num) : bool :=
  match x with PVector3 _ _ _ => true | _ => false end.

Definition is_quaternion {num : Type} (x : pyobj num) : bool :=
  match x with PQuat _ _ _ _ => true | _ => false end.

Definition valid_sensor {num : Type} (s : SensorState.t num) : bool :=
  is_vector3 (SensorState.position s) && is_quaternion (SensorState.rotation s).

Definition valid_agent {num : Type} (a : AgentState.t num) : bool :=
  is_vector3 (AgentState.position a) && is_quaternion (AgentState.rotation a)
  && forallb (fun kv => valid_sensor (snd kv)) (AgentState.sensors a).

Definition valid_state {num : Type} (s : MotorSystemState num) : bool :=
  forallb (fun kv => valid_agent (snd kv)) s.

Definition pose_ok {num : Type} (position rotation : pyobj num) : bool :=
  iterable position && decomposable rotation.

(** The poses of a state: those of its agents and of their sensors, as
    lookups find them. *)
Definition has_pose {num : Type} (self : MotorSystemState num)
    (position rotation : pyobj num) : Prop :=
  exists agent_id a, dict_get self agent_id = Some a /\
    ((position = AgentState.position a /\ rotation = AgentState.rotation a) \/
     exists sensor_id s, dict_get (AgentState.sensors a) sensor_id = Some s /\
       position = SensorState.position s /\ rotation = SensorState.rotation s).

Definition state_ok {num : Type} (self : MotorSystemState num) : Prop :=
  forall position rotation,
    has_pose self position rotation -> pose_ok position rotation = true.

(** ** Equality as Python's [==] sees it *)

Definition sensor_eq {num : Type} (s1 s2 : SensorState.t num) : Prop :=
  s1 = s2.

Definition agent_eq {num : Type} (a1 a2 : AgentState.t num) : Prop :=
  dict_eq sensor_eq (AgentState.sensors a1) (AgentState.sensors a2) /\
  AgentState.position a1 = AgentState.position a2 /\
  AgentState.rotation a1 = AgentState.rotation a2 /\
  AgentState.motor_only_step a1 = AgentState.motor_only_step a2.

Definition state_eq {num : Type} (s1 s2 : MotorSystemState num) : Prop :=
  dict_eq agent_eq s1 s2.

Inductive value_eq {num : Type} : value num -> value num -> Prop :=
| value_eq_none : value_eq VNone VNone
| value_eq_bool b : value_eq (VBool b) (VBool b)
| value_eq_float x : value_eq (VFloat x) (VFloat x)
| value_eq_str s : value_eq (VStr s) (VStr s)
| value_eq_list l1 l2 :
    Forall2 value_eq l1 l2 -> value_eq (VList l1) (VList l2)
| value_eq_array l : value_eq (VArray l) (VArray l)
| value_eq_dict d1 d2 :
    (forall k, option_Forall2 value_eq (dict_get d1 k) (dict_get d2 k)) ->
    value_eq (VDict d1) (VDict d2).

(** Two calls agree when both return equal mappings or both raise. *)
Definition outcome_eq {num : Type} (r1 r2 : result (dict (value num))) : Prop :=
  result_rel (fun o1 o2 => value_eq (VDict o1) (VDict o2)) r1 r2.

(** Equal but for the [motor_only_step] flags. *)
Definition agent_eq_but_flag {num : Type} (a1 a2 : AgentState.t num) : Prop :=
  AgentState.sensors a1 = AgentState.sensors a2 /\
  AgentState.position a1 = AgentState.position a2 /\
  AgentState.rotation a1 = AgentState.rotation a2.

Definition state_eq_but_flags {num : Type} (s1 s2 : MotorSystemState num) : Prop :=
  Forall2 (fun kv1 kv2 => fst kv1 = fst kv2 /\ agent_eq_but_flag (snd kv1) (snd kv2))
    s1 s2.

(** ** Shapes of the output *)

Definition is_float {num : Type} (v : value num) : bool :=
  match v with VFloat _ => true | _ => false end.

(** A Python list of floats. *)
Definition primitive_seq {num : Type} (v : value num) : bool :=
  match v with VList l => forallb is_float l | _ => false end.

(** A list of floats, or a numpy array of floats. *)
Definition numeric_seq {num : Type} (v : value num) : bool :=
  match v with VList l => forallb is_float l | VArray _ => true | _ => false end.

(** A mapping whose entries are sequences accepted by [leaf], or such
    mappings again. *)
Fixpoint mapping_of {num : Type} (leaf : value num -> bool) (v : value num) : bool :=
  match v with
  | VDict d =>
      forallb (fun kv => match kv with (_, x) => leaf x || mapping_of leaf x end) d
  | _ => false
  end.

(** ** JSON

    The data model of the interchange format, and the conversion tables of
    Python's [json] module: [json_encode] is what [dumps] accepts and how it
    maps it, [json_decode] is what [loads] gives back. *)
Local Unset Elimination Schemes.
Inductive json (num : Type) : Type :=
| JNull
| JBool (b : bool)
| JNumber (x : num)
| JString (s : string)
| JArray (l : list (json num))
| JObject (m : list (string * json num)).
Local Set Elimination Schemes.
Arguments JNull {num}.
Arguments JBool {num} b.
Arguments JNumber {num} x.
Arguments JString {num} s.
Arguments JArray {num} l.
Arguments JObject {num} m.

(** Encoding the elements of a container, the first failure being that of
    the whole. *)
Definition encode_all {A B : Type} (enc : A -> result B)
    : list A -> result (list B) :=
  fix items (l : list A) : result (list B) :=
    match l with
    | [] => Return []
    | x :: l' => j ← enc x; js ← items l'; mret (j :: js)
    end.

Fixpoint json_encode {num : Type} (v : value num) : result (json num) :=
  match v with
  | VNone => Return JNull
  | VBool b => Return (JBool b)
  | VFloat x => Return (JNumber x)
  | VStr s => Return (JString s)
  | VList l => JArray <$> encode_all json_encode l
  | VArray _ => Raise TypeError      (* not JSON serializable *)
  | VDict d =>
      JObject <$>
      encode_all (fun kv => match kv with (k, x) => pair k <$> json_encode x end) d
  end.

Fixpoint json_decode {num : Type} (j : json num) : value num :=
  match j with
  | JNull => VNone
  | JBool b => VBool b
  | JNumber x => VFloat x
  | JString s => VStr s
  | JArray l => VList (map json_decode l)
  | JObject m =>
      VDict (map (fun kj => match kj with (k, j') => (k, json_decode j') end) m)
  end.

(** [loads(dumps(v))] *)
Definition json_roundtrip {num : Type} (v : value num) : result (value num) :=
  json_decode <$> json_encode v.

(** [ndarray.tolist()] on every array of a value, which is how an encoder
    that knows numpy writes them. *)
Fixpoint arrays_tolist {num : Type} (v : value num) : value num :=
  match v with
  | VList l => VList (map arrays_tolist l)
  | VArray l => VList (map VFloat l)
  | VDict d =>
      VDict (map (fun kv => match kv with (k, x) => (k, arrays_tolist x) end) d)
  | VNone | VBool _ | VFloat _ | VStr _ => v
  end.

(** ** The example of the specification *)

Definition example_sensor : SensorState.t Q :=
  SensorState.mk (PVector3 0 0.1 0)%Q (PQuat 1 0 0 0)%Q.

Definition example_agent : AgentState.t Q :=
  AgentState.init [("sensor_id_0", example_sensor)]
    (PVector3 1 2 3)%Q (PQuat 0 0 0 1)%Q None.

Definition example_state : MotorSystemState Q :=
  [("agent_id_0", example_agent)].

Definition example_output : dict (value Q) :=
  [("agent_id_0", VDict [
      ("position", VArray [1; 2; 3]);
      ("rotation", VList [VFloat 0; VFloat 0; VFloat 0; VFloat 1]);
      ("sensors", VDict [
         ("sensor_id_0", VDict [
            ("position", VArray [0; 0.1; 0]);
            ("rotation", VList [VFloat 1; VFloat 0; VFloat 0; VFloat 0])])])])]%Q.

(** The same state with the control flag set. *)
Definition flagged_example_state : MotorSystemState Q :=
  [("agent_id_0",
    AgentState.init [("sensor_id_0", example_sensor)]
      (PVector3 1 2 3)%Q (PQuat 0 0 0 1)%Q (Some true))].

(** Two agents, inserted in one order and in the other. *)
Definition two_agents_state : MotorSystemState Q :=
  [("agent_id_0", example_agent);
   ("agent_id_1", AgentState.init [] (PVector3 0 0 0)%Q (PQuat 1 0 0 0)%Q None)].

Definition two_agents_swapped : MotorSystemState Q :=
  [("agent_id_1", AgentState.init [] (PVector3 0 0 0)%Q (PQuat 1 0 0 0)%Q None);
   ("agent_id_0", example_agent)].

(** A position with two components only. *)
Definition short_position_state : MotorSystemState Q :=
  [("agent_id_0", AgentState.init [] (PSeq [1; 2]) (PQuat 1 0 0 0) None)]%Q.

(** A rotation that is [None]. *)
Definition no_rotation_state : MotorSystemState Q :=
  [("agent_id_0", AgentState.init [] (PVector3 1 2 3) PNone None)]%Q.

(** ** The method on the object store

    [convert_motor_state] again, this time with the objects where Python
    keeps them: dictionaries and dataclass instances are cells of a store
    and are reached through references, [d[k] = v] overwrites a cell.  This
    is the embedding the frame property is stated on. *)
Module Store.

Abbreviation loc := nat.

(** What a dict entry or an attribute holds: a reference to a cell, or
    data kept by value: floats, and the lists and arrays, which the method
    reads and builds but never writes to.  Which object a list or an array
    is, is not tracked. *)
Inductive hval (num : Type) : Type :=
| HRef (l : loc)
| HData (v : value num).
Arguments HRef {num} l.
Arguments HData {num} v.

Inductive cell (num : Type) : Type :=
| CDict (d : dict (hval num))
| CSensorState (position rotation : pyobj num)
| CAgentState (sensors : hval num) (position rotation : pyobj num)
    (motor_only_step : bool).
Arguments CDict {num} d.
Arguments CSensorState {num} position rotation.
Arguments CAgentState {num} sensors position rotation motor_only_step.

(** Cell [l] of the store is its [l]-th element; new cells go last. *)
Abbreviation store num := (list (cell num)).

(** A computation on the store; what it wrote stays written when it
    raises. *)
Definition M (num A : Type) : Type := store num -> store num * result A.

Global Instance M_ret {num} : MRet (M num) := fun A x h => (h, Return x).
Global Instance M_bind {num} : MBind (M num) := fun A B f m h =>
  match m h with
  | (h', Return x) => f x h'
  | (h', Raise e) => (h', Raise e)
  end.

Section Operations.
Context {num : Type}.
Variable zero : num.

Definition lift {A : Type} (r : result A) : M num A := fun h => (h, r).

Definition alloc (c : cell num) : M num loc :=
  fun h => (h ++ [c], Return (length h)).

(** A reference to no cell, which no Python program can hold, is
    reported as a [RuntimeError]. *)
Definition load (l : loc) : M num (cell num) :=
  fun h => (h, match h !! l with
               | Some c => Return c
               | None => Raise RuntimeError
               end).

Definition write (l : loc) (c : cell num) : M num unit :=
  fun h => (<[l := c]> h, Return tt).

(** [d.keys()] *)
Definition keys (d : hval num) : M num (list string) :=
  match d with
  | HRef l =>
      c ← load l;
      match c with
      | CDict d => mret (dict_keys d)
      | _ => lift (Raise AttributeError)
      end
  | HData (VDict d) => mret (dict_keys d)
  | HData _ => lift (Raise AttributeError)
  end.

(** [d[k]] *)
Definition getitem (d : hval num) (k : string) : M num (hval num) :=
  match d with
  | HRef l =>
      c ← load l;
      match c with
      | CDict d => lift (dict_getitem d k)
      | _ => lift (Raise TypeError)
      end
  | HData (VDict d) => lift (HData <$> dict_getitem d k)
  | HData (VArray _) => lift (Raise IndexError)
  | HData _ => lift (Raise TypeError)
  end.

(** [d[k] = v] on the dict in cell [d] *)
Definition setitem (d : loc) (k : string) (v : hval num) : M num unit :=
  c ← load d;
  match c with
  | CDict e => write d (CDict (dict_set e k v))
  | _ => lift (Raise TypeError)
  end.

(** [o.sensors] *)
Definition get_sensors (o : hval num) : M num (hval num) :=
  match o with
  | HRef l =>
      c ← load l;
      match c with
      | CAgentState s _ _ _ => mret s
      | _ => lift (Raise AttributeError)
      end
  | HData _ => lift (Raise AttributeError)
  end.

(** [o.position] *)
Definition get_position (o : hval num) : M num (pyobj num) :=
  match o with
  | HRef l =>
      c ← load l;
      match c with
      | CAgentState _ p _ _ | CSensorState p _ => mret p
      | _ => lift (Raise AttributeError)
      end
  | HData _ => lift (Raise AttributeError)
  end.

(** [o.rotation] *)
Definition get_rotation (o : hval num) : M num (pyobj num) :=
  match o with
  | HRef l =>
      c ← load l;
      match c with
      | CAgentState _ _ r _ | CSensorState _ r => mret r
      | _ => lift (Raise AttributeError)
      end
  | HData _ => lift (Raise AttributeError)
  end.

Fixpoint for_in {A : Type} (xs : list A) (body : A -> M num unit)
    : M num unit :=
  match xs with
  | [] => mret tt
  | x :: xs' => body x;; for_in xs' body
  end.

(** [MotorSystemState.convert_motor_state], [self] being a reference *)
Definition convert_motor_state (self : hval num) : M num loc :=
  state_copy ← alloc (CDict []);
  agent_ids ← keys self;
  for_in agent_ids (fun agent_id =>
    agent_state ← getitem self agent_id;
    sensors ← alloc (CDict []);
    agent_sensors ← get_sensors agent_state;
    sensor_ids ← keys agent_sensors;
    for_in sensor_ids (fun sensor_id =>
      agent_sensors ← get_sensors agent_state;
      sensor_state ← getitem agent_sensors sensor_id;
      position ← get_position sensor_state;
      position ← lift (py_list position);
      rotation ← get_rotation sensor_state;
      real ← lift (attr_real rotation);
      rotation ← get_rotation sensor_state;
      imag ← lift (attr_imag zero rotation);
      imag ← lift (py_list imag);
      record ← alloc (CDict [
        ("position", HData (np_array position));
        ("rotation", HData (VList ([real] ++ map VFloat imag)))
      ]);
      setitem sensors sensor_id (HRef record));;
    position ← get_position agent_state;
    position ← lift (py_list position);
    rotation ← get_rotation agent_state;
    real ← lift (attr_real rotation);
    rotation ← get_rotation agent_state;
    imag ← lift (attr_imag zero rotation);
    imag ← lift (py_list imag);
    record ← alloc (CDict [
      ("position", HData (np_array position));
      ("rotation", HData (VList ([real] ++ map VFloat imag)));
      ("sensors", HRef sensors)
    ]);
    setitem state_copy agent_id (HRef record));;
  mret state_copy.

(** Reading a value back out of the store, [depth] references deep. *)
Fixpoint reify (depth : nat) (h : store num) (v : hval num)
    : option (value num) :=
  match v with
  | HData d => Some d
  | HRef l =>
      match depth with
      | O => None
      | S depth' =>
          match h !! l with
          | Some (CDict d) =>
              VDict <$>
              mapM (fun kv => x ← reify depth' h (snd kv); Some (fst kv, x)) d
          | _ => None
          end
      end
  end.

(** The store value [v] stands for the plain value [x], through cells
    from [lo] on only. *)
Inductive models (h : store num) (lo : loc) : hval num -> value num -> Prop :=
| models_data x : models h lo (HData x) x
| models_ref l e d :
    lo <= l ->
    h !! l = Some (CDict e) ->
    Forall2 (fun kv kx => fst kv = fst kx /\ models h lo (snd kv) (snd kx)) e d ->
    models h lo (HRef l) (VDict d).

(** An entry of a store dictionary stands for an entry of a plain one. *)
Definition entry_models (h : store num) (lo : loc) (kv : string * hval num)
    (kx : string * value num) : Prop :=
  fst kv = fst kx /\ models h lo (snd kv) (snd kx).

(** A computation that leaves the first [n] cells of the store as they
    are, whether it returns or raises, and whose result satisfies [P]. *)
Definition keeps {A : Type} (n : nat) (m : M num A) (P : A -> Prop) : Prop :=
  forall h, n <= length h ->
    n <= length (fst (m h)) /\ take n (fst (m h)) = take n h /\
    forall x, snd (m h) = Return x -> P x.

(** The store holds the state [s] at [self]. *)
Definition holds_sensor (h : store num) (v : hval num)
    (s : SensorState.t num) : Prop :=
  exists l, v = HRef l /\
    h !! l = Some (CSensorState (SensorState.position s) (SensorState.rotation s)).

Definition holds_dict {V : Type} (holds : store num -> hval num -> V -> Prop)
    (h : store num) (v : hval num) (d : dict V) : Prop :=
  exists l e, v = HRef l /\ h !! l = Some (CDict e) /\
    Forall2 (fun kv kx => fst kv = fst kx /\ holds h (snd kv) (snd kx)) e d.

Definition holds_agent (h : store num) (v : hval num)
    (a : AgentState.t num) : Prop :=
  exists l s, v = HRef l /\
    h !! l = Some (CAgentState s (AgentState.position a)
                     (AgentState.rotation a) (AgentState.motor_only_step a)) /\
    holds_dict holds_sensor h s (AgentState.sensors a).

Definition holds_state (h : store num) (self : hval num)
    (s : MotorSystemState num) : Prop :=
  holds_dict holds_agent h self s.

End Operations.

(** The example of the specification, laid out in the store. *)
Definition example_store : store Q :=
  [ CSensorState (PVector3 0 0.1 0)%Q (PQuat 1 0 0 0)%Q;
    CDict [("sensor_id_0", HRef 0)];
    CAgentState (HRef 1) (PVector3 1 2 3)%Q (PQuat 0 0 0 1)%Q false;
    CDict [("agent_id_0", HRef 2)] ].

End Store.

(** ** The simulator protocol

    [class Simulator(Protocol)]: a method takes the simulator and gives
    back the simulator it leaves behind together with its outcome; the
    three properties only read.  [Action], [ObjectID] and [SemanticID] come
    from modules the protocol imports and that are not among the sources,
    and the protocol does not say what observations are: all four are
    parameters. *)
Section Protocol.
Context {num Action Observations ObjectID SemanticID : Type}.

Definition VectorXYZ : Type := num * num * num.
Definition QuaternionWXYZ : Type := num * num * num * num.

Class Simulator (S : Type) : Type := {
  initialize_agent : S -> AgentID -> AgentState.t num -> S * result unit;
  remove_all_objects : S -> S * result unit;
  add_object :
    S -> forall (name : string) (position : option VectorXYZ)
      (rotation : option QuaternionWXYZ) (scale : option VectorXYZ)
      (semantic_id : option SemanticID) (enable_physics : bool)
      (primary_target_object : option ObjectID),
    S * result (ObjectID * option SemanticID);
  num_objects : S -> result nat;
  observations : S -> result Observations;
  states : S -> result (ProprioceptiveState num);
  apply_action : S -> Action -> S * result Observations;
  reset : S -> S * result Observations;
  close : S -> S * result unit
}.

(** The calls a client can make, to speak of sequences of them. *)
Inductive operation : Type :=
| InitializeAgent (agent_id : AgentID) (agent_state : AgentState.t num)
| RemoveAllObjects
| AddObject (name : string) (position : option VectorXYZ)
    (rotation : option QuaternionWXYZ) (scale : option VectorXYZ)
    (semantic_id : option SemanticID) (enable_physics : bool)
    (primary_target_object : option ObjectID)
| NumObjects
| GetObservations
| GetStates
| ApplyAction (action : Action)
| Reset
| Close.

(** Whether a call raised. *)
Definition raised {A : Type} (r : result A) : bool :=
  match r with Raise _ => true | Return _ => false end.

(** One call: the simulator afterwards, and whether the call raised. *)
Definition call {S : Type} `{Simulator S} (s : S) (op : operation) : S * bool :=
  match op with
  | InitializeAgent a st => let (s', r) := initialize_agent s a st in (s', raised r)
  | RemoveAllObjects => let (s', r) := remove_all_objects s in (s', raised r)
  | AddObject n p r sc sem ph tgt =>
      let (s', r) := add_object s n p r sc sem ph tgt in (s', raised r)
  | NumObjects => (s, raised (num_objects s))
  | GetObservations => (s, raised (observations s))
  | GetStates => (s, raised (states s))
  | ApplyAction a => let (s', r) := apply_action s a in (s', raised r)
  | Reset => let (s', r) := reset s in (s', raised r)
  | Close => let (s', r) := close s in (s', raised r)
  end.

(** A sequence of calls, whatever each of them answers. *)
Definition run {S : Type} `{Simulator S} (ops : list operation) (s : S) : S :=
  foldl (fun s op => fst (call s op)) s ops.

Definition is_close (op : operation) : bool :=
  match op with Close => true | _ => false end.

Definition is_reset (op : operation) : bool :=
  match op with Reset => true | _ => false end.

(** *** A backend that follows the contract *)
Section Backend.
(** What a backend is free to choose: its scenes, the scene it starts
    from, what the sensors see, and what each request does to a scene
    ([None] where the backend refuses the request). *)
Context {Scene : Type}.
Variable initial_scene : Scene.
Variable observe : Scene -> Observations.
Variable proprioception : Scene -> ProprioceptiveState num.
Variable count_objects : Scene -> nat.
Variable place_agent : AgentID -> AgentState.t num -> Scene -> option Scene.
Variable clear_objects : Scene -> Scene.
Variable registered : string -> bool.
Variable spawn :
  string -> option VectorXYZ -> option QuaternionWXYZ -> option VectorXYZ ->
  option SemanticID -> bool -> option ObjectID ->
  Scene -> Scene * (ObjectID * option SemanticID).
Variable perform : Action -> Scene -> option Scene.

(** Modelled from the spec: the two macro-states of section 4.2; the
    backends that implement the protocol are not among the sources. *)
Inductive macro_state : Type :=
| UninitializedOrReset
| Active.

(** Modelled from the spec: a simulator is open, in one of the two
    macro-states and with its current scene, until [close()]. *)
Inductive lifecycle : Type :=
| Open (m : macro_state) (scene : Scene)
| Closed.

(** Modelled from the spec: a freshly constructed simulator. *)
Definition fresh : lifecycle := Open UninitializedOrReset initial_scene.

(** Modelled from the spec: the operation table of section 4.2.  A call
    that fails leaves the simulator as it was; agent and object setup
    and the application of an action make it active; [reset()] goes
    back to the initial scene and answers with its observations;
    [close()] is idempotent and nothing else is valid after it. *)
Definition backend : Simulator lifecycle := {|
  initialize_agent s agent_id agent_state :=
    match s with
    | Open m sc =>
        match place_agent agent_id agent_state sc with
        | Some sc' => (Open Active sc', Return tt)
        | None => (s, Raise KeyError)
        end
    | Closed => (Closed, Raise RuntimeError)
    end;
  remove_all_objects s :=
    match s with
    | Open m sc => (Open Active (clear_objects sc), Return tt)
    | Closed => (Closed, Raise RuntimeError)
    end;
  add_object s name position rotation scale semantic_id enable_physics
      primary_target_object :=
    match s with
    | Open m sc =>
        if registered name then
          let (sc', ids) :=
            spawn name position rotation scale semantic_id enable_physics
              primary_target_object sc in
          (Open Active sc', Return ids)
        else (s, Raise KeyError)
    | Closed => (Closed, Raise RuntimeError)
    end;
  num_objects s :=
    match s with
    | Open _ sc => Return (count_objects sc)
    | Closed => Raise RuntimeError
    end;
  observations s :=
    match s with
    | Open _ sc => Return (observe sc)
    | Closed => Raise RuntimeError
    end;
  states s :=
    match s with
    | Open _ sc => Return (proprioception sc)
    | Closed => Raise RuntimeError
    end;
  apply_action s action :=
    match s with
    | Open m sc =>
        match perform action sc with
        | Some sc' => (Open Active sc', Return (observe sc'))
        | None => (s, Raise ValueError)
        end
    | Closed => (Closed, Raise RuntimeError)
    end;
  reset s :=
    match s with
    | Open _ _ => (fresh, Return (observe initial_scene))
    | Closed => (Closed, Raise RuntimeError)
    end;
  close s := (Closed, Return tt)
|}.

Definition is_closed (s : lifecycle) : bool :=
  match s with Closed => true | Open _ _ => false end.

Definition macro (s : lifecycle) : option macro_state :=
  match s with Open m _ => Some m | Closed => None end.

End Backend.
End Protocol.
Arguments lifecycle Scene : clear implicits.
Arguments operation num Action ObjectID SemanticID : clear implicits.
Arguments Simulator num Action Observations ObjectID SemanticID S : clear implicits.

(** A small backend to try the contract on: a scene is the number of its
    objects, which is also what the sensors report; the only registered
    object is ["cube"], and an action is the number of steps to take, ten
    at most. *)
Definition counting_backend : Simulator Q nat nat nat nat (lifecycle nat) :=
  backend 0 (fun scene => scene) (fun _ => []) (fun scene => scene)
    (fun _ _ scene => Some scene) (fun _ => 0)
    (fun name => bool_decide (name = "cube"))
    (fun _ _ _ _ _ _ _ scene => (S scene, (scene, None)))
    (fun action scene => if decide (action <= 10) then Some scene else None).

(** A history: an object is added and an action is applied. *)
Definition example_history : list (operation Q nat nat nat) :=
  [AddObject "cube" None None None None false None; ApplyAction 1; GetObservations].

(** ** Further examples and relations *)

(** Positions that iterate to the same components, or that both cannot be
    iterated. *)
Definition position_alike {num : Type} (p1 p2 : pyobj num) : Prop :=
  py_list p1 = py_list p2.

Definition sensor_alike {num : Type} (s1 s2 : SensorState.t num) : Prop :=
  position_alike (SensorState.position s1) (SensorState.position s2) /\
  SensorState.rotation s1 = SensorState.rotation s2.

(** Two dictionaries with the same keys in the same order and values
    related by [R]. *)
Definition dict_alike {V : Type} (R : V -> V -> Prop) (d1 d2 : dict V) : Prop :=
  Forall2 (fun kv1 kv2 => fst kv1 = fst kv2 /\ R (snd kv1) (snd kv2)) d1 d2.

Definition agent_alike {num : Type} (a1 a2 : AgentState.t num) : Prop :=
  dict_alike sensor_alike (AgentState.sensors a1) (AgentState.sensors a2) /\
  position_alike (AgentState.position a1) (AgentState.position a2) /\
  AgentState.rotation a1 = AgentState.rotation a2.

Definition state_alike {num : Type} (s1 s2 : MotorSystemState num) : Prop :=
  dict_alike agent_alike s1 s2.

(** The example with its positions given as a tuple and as an array. *)
Definition example_state_plain : MotorSystemState Q :=
  [("agent_id_0",
    AgentState.init
      [("sensor_id_0", SensorState.mk (PArray [0; 0.1; 0])%Q (PQuat 1 0 0 0)%Q)]
      (PSeq [1; 2; 3])%Q (PQuat 0 0 0 1)%Q None)].

(** An agent whose rotation is given as an array of four floats. *)
Definition array_rotation_state : MotorSystemState Q :=
  [("agent_id_0",
    AgentState.init [] (PVector3 1 2 3)%Q (PArray [1; 0; 0; 0])%Q None)].

(** A second agent, without sensors. *)
Definition second_agent : AgentState.t Q :=
  AgentState.init [] (PVector3 0 0 0)%Q (PQuat 1 0 0 0)%Q None.

(** An agent whose rotation is [None] and whose sensor has a position that
    is [None]. *)
Definition defective_agent : AgentState.t Q :=
  AgentState.init [("sensor_id_0", SensorState.mk PNone (PQuat 1 0 0 0)%Q)]
    (PVector3 1 2 3)%Q PNone None.

(** What a loop over the items stores for one item: the value [g] gives,
    under the item's key. *)
Definition map_item {V W : Type} (g : V -> result W) (kv : string * V)
    : result (string * W) :=
  pair (fst kv) <$> g (snd kv).

(** [state_ok], entry by entry. *)
Definition agent_okb {num : Type} (a : AgentState.t num) : bool :=
  pose_ok (AgentState.position a) (AgentState.rotation a)
  && forallb (fun kv => pose_ok (SensorState.position (snd kv))
                          (SensorState.rotation (snd kv)))
       (AgentState.sensors a).

Definition state_okb {num : Type} (self : MotorSystemState num) : bool :=
  forallb (fun kv => agent_okb (snd kv)) self.

(** No identifier twice, in the state and in the [sensors] of each agent:
    what every Python dictionary satisfies. *)
Definition keys_unique {num : Type} (self : MotorSystemState num) : Prop :=
  NoDup (dict_keys self) /\
  Forall (fun kv => NoDup (dict_keys (AgentState.sensors (snd kv)))) self.

(** * Properties *)

(** ** Dictionaries *)
Section DictFacts.
Context {V : Type}.
Implicit Types (d : dict V) (k : string) (v : V).

Lemma dict_get_set d k v k' :
  dict_get (dict_set d k v) k' = if decide (k' = k) then Some v else dict_get d k'.
Proof.
  induction d as [|[k0 v0] d IH]; simpl.
  - by destruct (decide (k' = k)).
  - destruct (decide (k = k0)) as [->|Hne]; simpl.
    + by destruct (decide (k' = k0)).
    + destruct (decide (k' = k0)) as [->|Hne'].
      * by rewrite decide_False by congruence.
      * apply IH.
Qed.

Lemma dict_get_set_eq d k v : dict_get (dict_set d k v) k = Some v.
Proof. by rewrite dict_get_set, decide_True. Qed.

Lemma dict_get_set_ne d k v k' :
  k' <> k -> dict_get (dict_set d k v) k' = dict_get d k'.
Proof. intros. by rewrite dict_get_set, decide_False. Qed.

Lemma dict_get_is_Some d k : is_Some (dict_get d k) <-> k ∈ dict_keys d.
Proof.
  unfold dict_keys. induction d as [|[k0 v0] d IH]; simpl.
  - split; [by intros [? ?] | by intros ?%elem_of_nil].
  - destruct (decide (k = k0)) as [->|Hne].
    + split; [intros _; apply list_elem_of_here | eauto].
    + rewrite IH. split; [apply list_elem_of_further|].
      intros [?|?]%elem_of_cons; [done | done].
Qed.

Lemma dict_get_None d k : dict_get d k = None <-> k ∉ dict_keys d.
Proof. rewrite <- dict_get_is_Some, eq_None_not_Some. done. Qed.

Lemma dict_keys_set d k v k' :
  k' ∈ dict_keys (dict_set d k v) <-> k' = k \/ k' ∈ dict_keys d.
Proof.
  rewrite <- !dict_get_is_Some, dict_get_set.
  destruct (decide (k' = k)) as [->|Hne]; [split; eauto | tauto].
Qed.

Lemma dict_getitem_Return d k v :
  dict_getitem d k = Return v <-> dict_get d k = Some v.
Proof.
  unfold dict_getitem. destruct (dict_get d k); [|done].
  split; congruence.
Qed.

(** A key that [keys()] gives is always found: no [KeyError]. *)
Lemma dict_getitem_keys d k :
  k ∈ dict_keys d -> exists v, dict_get d k = Some v /\ dict_getitem d k = Return v.
Proof.
  intros [v Hv]%dict_get_is_Some. exists v. split; [done|].
  by apply dict_getitem_Return.
Qed.

Lemma dict_keys_NoDup_set d k v :
  NoDup (dict_keys d) -> NoDup (dict_keys (dict_set d k v)).
Proof.
  unfold dict_keys. induction d as [|[k0 v0] d IH]; simpl; intros Hnd.
  - apply NoDup_singleton.
  - apply NoDup_cons in Hnd as [Hk0 Hnd].
    destruct (decide (k = k0)) as [->|Hne]; simpl.
    + by apply NoDup_cons.
    + apply NoDup_cons. split; [|by apply IH].
      intros Hin. apply Hk0.
      apply (dict_keys_set d k v k0) in Hin as [?|?]; [congruence | done].
Qed.
End DictFacts.

(** ** The result monad and loops *)
Section ResultFacts.
Context {A B : Type}.

Lemma bind_Return (x : A) (g : A -> result B) : Return x ≫= g = g x.
Proof. reflexivity. Qed.

Lemma bind_Raise (e : error) (g : A -> result B) : Raise e ≫= g = Raise e.
Proof. reflexivity. Qed.

Lemma bind_Return_inv (m : result A) (g : A -> result B) y :
  m ≫= g = Return y -> exists x, m = Return x /\ g x = Return y.
Proof. destruct m as [x|e]; [eauto | done]. Qed.

Lemma bind_Raise_inv (m : result A) (g : A -> result B) e :
  m ≫= g = Raise e -> m = Raise e \/ exists x, m = Return x /\ g x = Raise e.
Proof. destruct m as [x|e']; [eauto | intros [= ->]; eauto]. Qed.

Lemma fmap_Return_inv (m : result A) (g : A -> B) y :
  g <$> m = Return y -> exists x, m = Return x /\ y = g x.
Proof. destruct m as [x|e]; [intros [= <-]; eauto | done]. Qed.

End ResultFacts.

Section ForInFacts.
Context {A S : Type}.

Lemma for_in_cons (x : A) xs (body : A -> S -> result S) s :
  for_in (x :: xs) body s = body x s ≫= for_in xs body.
Proof. reflexivity. Qed.

Lemma for_in_ext (xs : list A) (b1 b2 : A -> S -> result S) s :
  (forall x s, x ∈ xs -> b1 x s = b2 x s) -> for_in xs b1 s = for_in xs b2 s.
Proof.
  revert s. induction xs as [|x xs IH]; intros s Hb; [done|].
  rewrite !for_in_cons, Hb by apply list_elem_of_here.
  destruct (b2 x s) as [s'|e]; [|done]. rewrite !bind_Return.
  apply IH. intros. apply Hb. by apply list_elem_of_further.
Qed.
End ForInFacts.

Section LoopFacts.
Context {V : Type}.
Variable f : string -> result V.

Lemma store_under_Return k acc v :
  f k = Return v -> store_under f k acc = Return (dict_set acc k v).
Proof. unfold store_under. by intros ->. Qed.

Lemma store_under_Raise k acc e :
  f k = Raise e -> store_under f k acc = Raise e.
Proof. unfold store_under. by intros ->. Qed.

Lemma for_in_set_Return ks acc out :
  for_in ks (store_under f) acc = Return out ->
  (forall k, k ∈ ks -> exists v, f k = Return v /\ dict_get out k = Some v) /\
  (forall k, k ∉ ks -> dict_get out k = dict_get acc k) /\
  (forall k, k ∈ dict_keys out <-> k ∈ ks \/ k ∈ dict_keys acc) /\
  (NoDup (dict_keys acc) -> NoDup (dict_keys out)).
Proof.
  revert acc. induction ks as [|k0 ks IH]; intros acc.
  - intros [= <-]. split_and!; [by intros ? ?%elem_of_nil | done | | done].
    intros k. rewrite elem_of_nil. tauto.
  - rewrite for_in_cons. destruct (f k0) as [v0|e] eqn:Hf.
    2: { by rewrite (store_under_Raise _ _ _ Hf). }
    rewrite (store_under_Return _ _ _ Hf), bind_Return.
    intros Hout. destruct (IH _ Hout) as (Hin & Hnotin & Hkeys & Hnd).
    split_and!.
    + intros k [->|Hk]%elem_of_cons; [|by apply Hin].
      destruct (decide (k0 ∈ ks)) as [Hk0|Hk0]; [by apply Hin|].
      exists v0. split; [done|]. by rewrite Hnotin, dict_get_set_eq.
    + intros k Hk. apply not_elem_of_cons in Hk as [Hne Hk].
      by rewrite Hnotin, dict_get_set_ne.
    + intros k. rewrite Hkeys, dict_keys_set, elem_of_cons. tauto.
    + intros Hacc. by apply Hnd, dict_keys_NoDup_set.
Qed.

Lemma for_in_set_Raise ks acc e :
  for_in ks (store_under f) acc = Raise e -> exists k, k ∈ ks /\ f k = Raise e.
Proof.
  revert acc. induction ks as [|k0 ks IH]; intros acc; [done|].
  rewrite for_in_cons. destruct (f k0) as [v0|e0] eqn:Hf.
  - rewrite (store_under_Return _ _ _ Hf), bind_Return.
    intros (k & ? & ?)%IH. exists k. split; [by apply list_elem_of_further | done].
  - rewrite (store_under_Raise _ _ _ Hf), bind_Raise.
    intros [= ->]. exists k0. split; [apply list_elem_of_here | done].
Qed.

Lemma for_in_set_total ks acc :
  (forall k, k ∈ ks -> exists v, f k = Return v) ->
  exists out, for_in ks (store_under f) acc = Return out.
Proof.
  intros Hall. destruct (for_in ks (store_under f) acc) as [out|e] eqn:Hrun; [by eexists|].
  apply for_in_set_Raise in Hrun as (k & Hk & Hf).
  destruct (Hall k Hk) as [v Hv]. congruence.
Qed.
End LoopFacts.

(** ** Loops over the items of a dictionary *)
Section MapItems.
Context {V W : Type}.
Variable g : V -> result W.
Implicit Types (d : dict V) (out : dict W).

Lemma map_items_Return d out :
  map_items g d = Return out ->
  (forall k x, dict_get d k = Some x ->
     exists v, g x = Return v /\ dict_get out k = Some v) /\
  (forall k, dict_get d k = None -> dict_get out k = None) /\
  (forall k, k ∈ dict_keys out <-> k ∈ dict_keys d) /\
  NoDup (dict_keys out).
Proof.
  intros Hrun. apply for_in_set_Return in Hrun as (Hin & Hnotin & Hkeys & Hnd).
  split_and!.
  - intros k x Hx. destruct (Hin k) as (v & Hv & Hout).
    { apply dict_get_is_Some. eauto. }
    exists v. split; [|done].
    apply dict_getitem_Return in Hx. by rewrite Hx in Hv.
  - intros k Hk. rewrite Hnotin; [done|]. by apply dict_get_None.
  - intros k. rewrite Hkeys. unfold dict_keys at 3. simpl.
    rewrite elem_of_nil. tauto.
  - apply Hnd. apply NoDup_nil_2.
Qed.

Lemma map_items_Raise d e :
  map_items g d = Raise e -> exists k x, dict_get d k = Some x /\ g x = Raise e.
Proof.
  intros (k & Hk & Hf)%for_in_set_Raise.
  apply dict_getitem_keys in Hk as (x & Hx & Hitem).
  exists k, x. split; [done|]. by rewrite Hitem in Hf.
Qed.

Lemma map_items_total d :
  (forall k x, dict_get d k = Some x -> exists v, g x = Return v) ->
  exists out, map_items g d = Return out.
Proof.
  intros Hall. apply for_in_set_total. intros k Hk.
  apply dict_getitem_keys in Hk as (x & Hx & Hitem).
  rewrite Hitem. eauto.
Qed.
End MapItems.

(** Equal dictionaries, whatever their insertion order, give equal results. *)
Lemma map_items_rel {V W : Type} (R : V -> V -> Prop) (Q : W -> W -> Prop)
    (g : V -> result W) (d1 d2 : dict V) :
  (forall x1 x2, R x1 x2 -> result_rel Q (g x1) (g x2)) ->
  dict_eq R d1 d2 ->
  result_rel (dict_eq Q) (map_items g d1) (map_items g d2).
Proof.
  intros Hg Heq.
  assert (Hfail : forall d1 d2 e, dict_eq R d1 d2 \/ dict_eq R d2 d1 ->
            map_items g d1 = Raise e -> exists e', map_items g d2 = Raise e').
  { clear d1 d2 Heq. intros d1 d2 e Heq (k & x1 & Hx1 & Hgx)%map_items_Raise.
    destruct (map_items g d2) as [out2|e2] eqn:Hrun2; [|by eexists].
    apply map_items_Return in Hrun2 as (Hin2 & _).
    assert (exists x2, dict_get d2 k = Some x2 /\ (R x1 x2 \/ R x2 x1))
      as (x2 & Hx2 & HR).
    { destruct Heq as [Heq|Heq]; specialize (Heq k); rewrite Hx1 in Heq;
        inversion Heq; eauto. }
    destruct (Hin2 k x2 Hx2) as (v & Hv & _).
    destruct HR as [HR|HR]; apply Hg in HR; rewrite Hgx, Hv in HR; done. }
  destruct (map_items g d1) as [out1|e1] eqn:Hrun1;
    destruct (map_items g d2) as [out2|e2] eqn:Hrun2; simpl; [| | |done].
  - apply map_items_Return in Hrun1 as (Hin1 & Hnone1 & _).
    apply map_items_Return in Hrun2 as (Hin2 & Hnone2 & _).
    intros k. specialize (Heq k).
    destruct (dict_get d1 k) as [x1|] eqn:Hx1;
      destruct (dict_get d2 k) as [x2|] eqn:Hx2; inversion Heq as [? ? HR|]; subst.
    + destruct (Hin1 k x1 Hx1) as (v1 & Hv1 & ->).
      destruct (Hin2 k x2 Hx2) as (v2 & Hv2 & ->).
      constructor. apply Hg in HR. by rewrite Hv1, Hv2 in HR.
    + rewrite Hnone1, Hnone2 by done. constructor.
  - destruct (Hfail d2 d1 e2) as [? ?]; [by right | done | congruence].
  - destruct (Hfail d1 d2 e1) as [? ?]; [by left | done | congruence].
Qed.

(** ** [convert_motor_state], entry by entry *)
Section Entries.
Context {num : Type}.
Variable zero : num.
Implicit Types (self : MotorSystemState num) (a : AgentState.t num)
  (s : SensorState.t num) (out : dict (value num))
  (position rotation : pyobj num).

Local Tactic Notation "case_result" constr(m) "as" ident(x) :=
  destruct m as [x|?]; cbn [mbind result_bind mret result_ret fmap result_fmap];
  try reflexivity.

(** The loops of the method store [agent_entry] and [sensor_entry]. *)
Lemma convert_motor_state_entries self :
  convert_motor_state zero self = map_items (agent_entry zero) self.
Proof.
  unfold convert_motor_state, map_items. apply for_in_ext. intros agent_id acc _.
  unfold store_under. case_result (dict_getitem self agent_id) as a.
  unfold agent_entry, sensors_entry, map_items.
  rewrite (for_in_ext _ _
    (store_under (fun sensor_id =>
       dict_getitem (AgentState.sensors a) sensor_id ≫= sensor_entry zero))).
  2: { intros sensor_id sacc _. unfold store_under, sensor_entry, pose_fields.
       case_result (dict_getitem (AgentState.sensors a) sensor_id) as s.
       case_result (py_list (SensorState.position s)) as position.
       case_result (attr_real (SensorState.rotation s)) as real.
       case_result (attr_imag zero (SensorState.rotation s)) as imag.
       case_result (py_list imag) as imag'. }
  case_result (for_in (dict_keys (AgentState.sensors a))
    (store_under (fun sensor_id =>
       dict_getitem (AgentState.sensors a) sensor_id ≫= sensor_entry zero)) [])
    as sensors.
  unfold pose_fields.
  case_result (py_list (AgentState.position a)) as position.
  case_result (attr_real (AgentState.rotation a)) as real.
  case_result (attr_imag zero (AgentState.rotation a)) as imag.
  case_result (py_list imag) as imag'.
Qed.

(** *** One pose *)

Lemma pose_fields_spec position rotation :
  match pose_error position rotation with
  | Some e => pose_fields zero position rotation = Raise e
  | None =>
      exists l real imag,
        py_list position = Return l /\ attr_real rotation = Return real /\
        attr_imag zero rotation ≫= py_list = Return imag /\
        pose_fields zero position rotation =
          Return [("position", VArray l);
                  ("rotation", VList (real :: map VFloat imag))]
  end.
Proof. destruct position, rotation; simpl; eauto 10. Qed.

Lemma pose_ok_error position rotation :
  pose_ok position rotation = true <-> pose_error position rotation = None.
Proof. destruct position, rotation; simpl; split; done. Qed.

Lemma pose_error_kind position rotation e :
  pose_error position rotation = Some e -> e = TypeError \/ e = AttributeError.
Proof. destruct position, rotation; simpl; intros [= <-]; auto. Qed.

Lemma pose_fields_Return position rotation fields :
  pose_fields zero position rotation = Return fields ->
  pose_error position rotation = None /\
  dict_keys fields = ["position"; "rotation"].
Proof.
  pose proof (pose_fields_spec position rotation) as H.
  destruct (pose_error position rotation) as [e|]; [congruence|].
  destruct H as (l & real & imag & _ & _ & _ & ->). by intros [= <-].
Qed.

Lemma pose_fields_Raise position rotation e :
  pose_fields zero position rotation = Raise e ->
  pose_error position rotation = Some e.
Proof.
  pose proof (pose_fields_spec position rotation) as H.
  destruct (pose_error position rotation) as [e'|]; [congruence|].
  destruct H as (l & real & imag & _ & _ & _ & ->). done.
Qed.

Lemma pose_fields_total position rotation :
  pose_error position rotation = None ->
  exists fields, pose_fields zero position rotation = Return fields.
Proof.
  pose proof (pose_fields_spec position rotation) as H. intros Hnone.
  rewrite Hnone in H. destruct H as (l & real & imag & _ & _ & _ & ->). eauto.
Qed.

(** *** One agent *)

Lemma sensor_entry_Return s v :
  sensor_entry zero s = Return v <->
  exists fields,
    pose_fields zero (SensorState.position s) (SensorState.rotation s)
      = Return fields /\ v = VDict fields.
Proof.
  unfold sensor_entry. split.
  - intros (fields & ? & ?)%fmap_Return_inv. eauto.
  - by intros (fields & -> & ->).
Qed.

Lemma sensor_entry_Raise s e :
  sensor_entry zero s = Raise e ->
  pose_fields zero (SensorState.position s) (SensorState.rotation s) = Raise e.
Proof. unfold sensor_entry. destruct (pose_fields _ _ _); cbn; congruence. Qed.

Lemma agent_entry_Return a v :
  agent_entry zero a = Return v <->
  exists fields sens,
    pose_fields zero (AgentState.position a) (AgentState.rotation a)
      = Return fields /\
    sensors_entry zero (AgentState.sensors a) = Return sens /\
    v = VDict (fields ++ [("sensors", VDict sens)]).
Proof.
  unfold agent_entry. split.
  - intros (sens & Hsens & (fields & Hfields & [= <-])%bind_Return_inv)%bind_Return_inv.
    eauto.
  - by intros (fields & sens & -> & -> & ->).
Qed.

Lemma agent_entry_Raise a e :
  agent_entry zero a = Raise e ->
  sensors_entry zero (AgentState.sensors a) = Raise e \/
  pose_fields zero (AgentState.position a) (AgentState.rotation a) = Raise e.
Proof.
  unfold agent_entry.
  intros [?|(sens & _ & [?|(fields & _ & ?)]%bind_Raise_inv)]%bind_Raise_inv;
    [by left | by right | done].
Qed.

(** An exception is always that of some pose of the state. *)
Lemma convert_motor_state_Raise self e :
  convert_motor_state zero self = Raise e ->
  exists position rotation,
    has_pose self position rotation /\ pose_error position rotation = Some e.
Proof.
  rewrite convert_motor_state_entries.
  intros (agent_id & a & Ha & [Hs|Hp]%agent_entry_Raise)%map_items_Raise.
  - apply map_items_Raise in Hs as (sensor_id & s & Hs & He).
    apply sensor_entry_Raise, pose_fields_Raise in He.
    exists (SensorState.position s), (SensorState.rotation s).
    split; [|done]. exists agent_id, a. split; [done|]. right. eauto.
  - apply pose_fields_Raise in Hp.
    exists (AgentState.position a), (AgentState.rotation a).
    split; [|done]. exists agent_id, a. split; [done|]. by left.
Qed.

(** What a call that returns has built. *)
Lemma convert_motor_state_Return self out :
  convert_motor_state zero self = Return out ->
  (forall k, k ∈ dict_keys out <-> k ∈ dict_keys self) /\
  NoDup (dict_keys out) /\
  forall agent_id a, dict_get self agent_id = Some a ->
    exists fields sens,
      pose_fields zero (AgentState.position a) (AgentState.rotation a)
        = Return fields /\
      dict_get out agent_id = Some (VDict (fields ++ [("sensors", VDict sens)])) /\
      (forall k, k ∈ dict_keys sens <-> k ∈ dict_keys (AgentState.sensors a)) /\
      NoDup (dict_keys sens) /\
      forall sensor_id s, dict_get (AgentState.sensors a) sensor_id = Some s ->
        exists sfields,
          pose_fields zero (SensorState.position s) (SensorState.rotation s)
            = Return sfields /\
          dict_get sens sensor_id = Some (VDict sfields).
Proof.
  rewrite convert_motor_state_entries.
  intros (Hin & _ & Hkeys & Hnd)%map_items_Return. split_and!; [done | done |].
  intros agent_id a Ha. destruct (Hin _ _ Ha) as (v & Hv & Hout).
  apply agent_entry_Return in Hv as (fields & sens & Hfields & Hsens & ->).
  exists fields, sens. split_and!; [done | done | | |].
  - by apply map_items_Return in Hsens as (_ & _ & ? & _).
  - by apply map_items_Return in Hsens as (_ & _ & _ & ?).
  - intros sensor_id s Hs.
    apply map_items_Return in Hsens as (Hsin & _).
    destruct (Hsin _ _ Hs) as (sv & (sfields & ? & ->)%sensor_entry_Return & ?).
    eauto.
Qed.

(** The method returns exactly on the states all of whose poses are fit. *)
Lemma convert_motor_state_total self :
  state_ok self -> exists out, convert_motor_state zero self = Return out.
Proof.
  intros Hok.
  destruct (convert_motor_state zero self) as [out|e] eqn:Hrun; [by eexists|].
  apply convert_motor_state_Raise in Hrun as (position & rotation & Hpose & He).
  apply Hok, pose_ok_error in Hpose. congruence.
Qed.

Lemma convert_motor_state_Return_ok self out :
  convert_motor_state zero self = Return out -> state_ok self.
Proof.
  intros Hrun%convert_motor_state_Return. destruct Hrun as (_ & _ & Hrun).
  intros position rotation (agent_id & a & Ha & Hpose).
  destruct (Hrun _ _ Ha) as (fields & sens & Hfields & _ & _ & _ & Hsens).
  apply pose_ok_error.
  destruct Hpose as [[-> ->]|(sensor_id & s & Hs & -> & ->)].
  - by apply pose_fields_Return in Hfields as [? _].
  - destruct (Hsens _ _ Hs) as (sfields & Hsf & _).
    by apply pose_fields_Return in Hsf as [? _].
Qed.

(** *** Valid states *)

Lemma dict_get_forallb {V : Type} (p : V -> bool) (d : dict V) k x :
  forallb (fun kv => p (snd kv)) d = true -> dict_get d k = Some x -> p x = true.
Proof.
  induction d as [|[k0 x0] d IH]; simpl; [done|].
  intros [Hx0 Hd]%andb_true_iff.
  destruct (decide (k = k0)); [by intros [= <-] | by apply IH].
Qed.

Lemma valid_state_agent self agent_id a :
  valid_state self = true -> dict_get self agent_id = Some a ->
  exists px py pz w x y z,
    AgentState.position a = PVector3 px py pz /\
    AgentState.rotation a = PQuat w x y z /\
    forall sensor_id s, dict_get (AgentState.sensors a) sensor_id = Some s ->
      exists px' py' pz' w' x' y' z',
        SensorState.position s = PVector3 px' py' pz' /\
        SensorState.rotation s = PQuat w' x' y' z'.
Proof.
  intros Hvalid Ha. apply (dict_get_forallb valid_agent _ _ _ Hvalid) in Ha.
  unfold valid_agent in Ha.
  apply andb_true_iff in Ha as [[Hp Hr]%andb_true_iff Hs].
  destruct (AgentState.position a) as [| | | |px py pz|]; try done.
  destruct (AgentState.rotation a) as [| | | | |w x y z]; try done.
  exists px, py, pz, w, x, y, z. split_and!; [done | done |].
  intros sensor_id s Hget.
  apply (dict_get_forallb valid_sensor _ _ _ Hs) in Hget.
  unfold valid_sensor in Hget. apply andb_true_iff in Hget as [Hsp Hsr].
  destruct (SensorState.position s) as [| | | |px' py' pz'|]; try done.
  destruct (SensorState.rotation s) as [| | | | |w' x' y' z']; try done.
  by exists px', py', pz', w', x', y', z'.
Qed.

Lemma valid_state_ok self : valid_state self = true -> state_ok self.
Proof.
  intros Hvalid position rotation (agent_id & a & Ha & Hpose).
  destruct (valid_state_agent _ _ _ Hvalid Ha)
    as (px & py & pz & w & x & y & z & Hp & Hr & Hs).
  destruct Hpose as [[-> ->]|(sensor_id & s & Hget & -> & ->)].
  - by rewrite Hp, Hr.
  - destruct (Hs _ _ Hget) as (? & ? & ? & ? & ? & ? & ? & -> & ->). done.
Qed.
End Entries.

(** ** Values *)
Section ValueInduction.
Context {num : Type} (P : value num -> Prop).
Hypothesis HNone : P VNone.
Hypothesis HBool : forall b, P (VBool b).
Hypothesis HFloat : forall x, P (VFloat x).
Hypothesis HStr : forall s, P (VStr s).
Hypothesis HList : forall l, Forall P l -> P (VList l).
Hypothesis HArray : forall l, P (VArray l).
Hypothesis HDict : forall d, Forall (fun kv => P (snd kv)) d -> P (VDict d).

(** Induction on values, with the hypothesis for every element of a list
    and every entry of a dictionary. *)
Fixpoint value_ind (v : value num) : P v :=
  match v with
  | VNone => HNone
  | VBool b => HBool b
  | VFloat x => HFloat x
  | VStr s => HStr s
  | VList l =>
      HList l
        ((fix elements (l : list (value num)) : Forall P l :=
            match l with
            | [] => List.Forall_nil P
            | x :: l' => List.Forall_cons P x l' (value_ind x) (elements l')
            end) l)
  | VArray l => HArray l
  | VDict d =>
      HDict d
        ((fix entries (d : list (string * value num))
              : Forall (fun kv => P (snd kv)) d :=
            match d with
            | [] => List.Forall_nil _
            | (k, x) :: d' =>
                List.Forall_cons (fun kv => P (snd kv)) (k, x) d'
                  (value_ind x) (entries d')
            end) d)
  end.
End ValueInduction.

Section ValueFacts.
Context {num : Type}.
Implicit Types (v : value num) (d : dict (value num)).

Lemma dict_get_Forall {V : Type} (P : V -> Prop) (d : dict V) k x :
  Forall (fun kv => P (snd kv)) d -> dict_get d k = Some x -> P x.
Proof.
  induction 1 as [|[k0 x0] d HP _ IH]; simpl; [done|].
  destruct (decide (k = k0)); [by intros [= <-] | done].
Qed.

Lemma value_eq_refl v : value_eq v v.
Proof.
  induction v as [| | | |l IH| |d IH] using value_ind; try by constructor.
  - constructor. induction IH; by constructor.
  - constructor. intros k.
    destruct (dict_get d k) as [x|] eqn:Hx; constructor.
    exact (dict_get_Forall (fun x => value_eq x x) _ _ _ IH Hx).
Qed.

Lemma dict_eq_refl d : dict_eq value_eq d d.
Proof. intros k. destruct (dict_get d k); constructor. apply value_eq_refl. Qed.

(** *** JSON *)

Lemma encode_all_map {A B : Type} (enc : A -> result B) (dec : B -> A)
    (l : list A) :
  Forall (fun x => dec <$> enc x = Return x) l ->
  map dec <$> encode_all enc l = Return l.
Proof.
  induction 1 as [|x l Hx _ IH]; [done|]. simpl.
  apply fmap_Return_inv in Hx as (j & -> & Hj).
  apply fmap_Return_inv in IH as (js & -> & Hjs).
  cbn. by rewrite <- Hj, <- Hjs.
Qed.

(** Without arrays a value survives [dumps] and [loads] unchanged. *)
Lemma json_roundtrip_tolist v :
  json_roundtrip (arrays_tolist v) = Return (arrays_tolist v).
Proof.
  unfold json_roundtrip.
  induction v as [| | | |l IH|l|d IH] using value_ind; try done.
  - cbn [arrays_tolist json_encode].
    pose proof (encode_all_map json_encode json_decode (map arrays_tolist l)) as H.
    rewrite Forall_map in H. specialize (H IH).
    apply fmap_Return_inv in H as (js & -> & Hjs). cbn. by rewrite <- Hjs.
  - cbn [arrays_tolist json_encode].
    pose proof (encode_all_map json_encode json_decode (map VFloat l)) as H.
    rewrite Forall_map in H.
    assert (Forall (fun x : num =>
              json_decode <$> json_encode (VFloat x) = Return (VFloat x)) l)
      as Hl by (by apply Forall_forall).
    specialize (H Hl).
    apply fmap_Return_inv in H as (js & -> & Hjs). cbn. by rewrite <- Hjs.
  - cbn [arrays_tolist json_encode].
    set (enc := fun kv : string * value num =>
                  match kv with (k, x) => pair k <$> json_encode x end).
    set (dec := fun kj : string * json num =>
                  match kj with (k, j') => (k, json_decode j') end).
    set (tl := fun kv : string * value num =>
                 match kv with (k, x) => (k, arrays_tolist x) end).
    pose proof (encode_all_map enc dec (map tl d)) as H.
    rewrite Forall_map in H.
    assert (Forall (fun kv => dec <$> enc (tl kv) = Return (tl kv)) d) as Hd.
    { eapply Forall_impl; [exact IH|]. intros [k x] Hx. simpl in *.
      apply fmap_Return_inv in Hx as (j & -> & Hj). cbn. by rewrite <- Hj. }
    specialize (H Hd).
    apply fmap_Return_inv in H as (js & -> & Hjs). cbn. fold dec. by rewrite <- Hjs.
Qed.
End ValueFacts.

(** ** The object store *)
Section StoreFacts.
Import Store.
Context {num : Type}.
Variable zero : num.
Implicit Types (h : store num) (n : nat) (l : loc) (c : cell num)
  (v : hval num).

Lemma keeps_ret {A : Type} n (x : A) (P : A -> Prop) :
  P x -> keeps n (mret x : M num A) P.
Proof. intros HP h Hn. simpl. split_and!; [done | done |]. by intros ? [= <-]. Qed.

Lemma keeps_lift {A : Type} n (r : result A) :
  keeps n (lift (num:=num) r) (fun x => r = Return x).
Proof. intros h Hn. simpl. split_and!; [done | done | by intros ? ->]. Qed.

Lemma keeps_weaken {A : Type} n (m : M num A) (P Q : A -> Prop) :
  keeps n m P -> (forall x, P x -> Q x) -> keeps n m Q.
Proof.
  intros Hm HPQ h Hn. destruct (Hm h Hn) as (? & ? & HP). split_and!; auto.
Qed.

Lemma keeps_bind {A B : Type} n (m : M num A) (f : A -> M num B)
    (P : A -> Prop) (Q : B -> Prop) :
  keeps n m P -> (forall x, P x -> keeps n (f x) Q) -> keeps n (m ≫= f) Q.
Proof.
  intros Hm Hf h Hn. destruct (Hm h Hn) as (Hn' & Htake & HP).
  unfold mbind, M_bind. destruct (m h) as [h' [x|e]]; simpl in *.
  - destruct (Hf x (HP x eq_refl) h' Hn') as (? & Htake' & HQ).
    split_and!; [done | congruence | done].
  - split_and!; [done | done | by intros ? [=]].
Qed.

Lemma keeps_alloc n c : keeps n (alloc c) (fun l => n <= l).
Proof.
  intros h Hn. unfold alloc. cbn [fst snd]. split_and!.
  - rewrite length_app. lia.
  - by rewrite take_app_le.
  - by intros ? [= <-].
Qed.

Lemma keeps_load n l : keeps n (load (num:=num) l) (fun _ => True).
Proof. intros h Hn. by split_and!. Qed.

Lemma keeps_write n l c : n <= l -> keeps n (write l c) (fun _ => True).
Proof.
  intros Hl h Hn. unfold write. cbn [fst snd]. split_and!; [| |done].
  - by rewrite length_insert.
  - by rewrite take_insert_ge.
Qed.

Local Ltac keeps_read :=
  repeat match goal with
    | |- keeps _ (mret _) _ => by apply keeps_ret
    | |- keeps _ (lift _) _ =>
        eapply keeps_weaken; [apply keeps_lift | done]
    | |- keeps _ (load _ ≫= _) _ =>
        eapply keeps_bind; [apply keeps_load | intros [] _]
    | |- keeps _ (match ?x with _ => _ end) _ => destruct x
    end.

Lemma keeps_keys n v : keeps n (keys v) (fun _ => True).
Proof. unfold keys. keeps_read. Qed.

Lemma keeps_getitem n v k : keeps n (getitem v k) (fun _ => True).
Proof. unfold getitem. keeps_read. Qed.

Lemma keeps_get_sensors n v : keeps n (get_sensors v) (fun _ => True).
Proof. unfold get_sensors. keeps_read. Qed.

Lemma keeps_get_position n v : keeps n (get_position v) (fun _ => True).
Proof. unfold get_position. keeps_read. Qed.

Lemma keeps_get_rotation n v : keeps n (get_rotation v) (fun _ => True).
Proof. unfold get_rotation. keeps_read. Qed.

Lemma keeps_setitem n l k v : n <= l -> keeps n (setitem l k v) (fun _ => True).
Proof.
  intros Hl. unfold setitem.
  eapply keeps_bind; [apply keeps_load | intros [] _]; keeps_read.
  by apply keeps_write.
Qed.

Lemma keeps_for_in {A : Type} n (xs : list A) (body : A -> M num unit) :
  (forall x, keeps n (body x) (fun _ => True)) ->
  keeps n (for_in xs body) (fun _ => True).
Proof.
  intros Hbody. induction xs as [|x xs IH]; simpl.
  - by apply keeps_ret.
  - eapply keeps_bind; [apply Hbody | by intros _ _].
Qed.

Local Ltac keeps_step :=
  first
    [ eapply keeps_bind; [apply keeps_keys | intros ? _]
    | eapply keeps_bind; [apply keeps_getitem | intros ? _]
    | eapply keeps_bind; [apply keeps_get_sensors | intros ? _]
    | eapply keeps_bind; [apply keeps_get_position | intros ? _]
    | eapply keeps_bind; [apply keeps_get_rotation | intros ? _]
    | eapply keeps_bind; [apply keeps_lift | intros ? _] ].

(** The method writes to the cells it has allocated only, and returns
    one of them. *)
Lemma keeps_convert_motor_state n self :
  keeps n (convert_motor_state zero self) (fun l => n <= l).
Proof.
  unfold convert_motor_state.
  eapply keeps_bind; [apply keeps_alloc | intros state_copy Hcopy].
  keeps_step.
  eapply keeps_bind; [|by intros; apply keeps_ret].
  apply keeps_for_in. intros agent_id.
  keeps_step.
  eapply keeps_bind; [apply keeps_alloc | intros sensors Hsensors].
  do 2 keeps_step.
  eapply keeps_bind.
  { apply keeps_for_in. intros sensor_id.
    do 9 keeps_step.
    eapply keeps_bind; [apply keeps_alloc | intros record _].
    by apply keeps_setitem. }
  intros _ _. do 7 keeps_step.
  eapply keeps_bind; [apply keeps_alloc | intros record _].
  by apply keeps_setitem.
Qed.

(** What the store holds at a reference it still holds in any store that
    has kept the cells. *)
Lemma holds_sensor_mono h h' v (s : SensorState.t num) :
  (forall l c, h !! l = Some c -> h' !! l = Some c) ->
  holds_sensor h v s -> holds_sensor h' v s.
Proof. intros Hsub (l & -> & Hl). exists l. auto. Qed.

Lemma holds_dict_mono {V : Type}
    (holds : store num -> hval num -> V -> Prop) h h' v (d : dict V) :
  (forall l c, h !! l = Some c -> h' !! l = Some c) ->
  (forall v x, holds h v x -> holds h' v x) ->
  holds_dict holds h v d -> holds_dict holds h' v d.
Proof.
  intros Hsub Hholds (l & e & -> & Hl & Hall). exists l, e.
  split_and!; [done | by apply Hsub |].
  eapply Forall2_impl; [exact Hall|]. intros kv kx [? ?]. auto.
Qed.

Lemma holds_agent_mono h h' v (a : AgentState.t num) :
  (forall l c, h !! l = Some c -> h' !! l = Some c) ->
  holds_agent h v a -> holds_agent h' v a.
Proof.
  intros Hsub (l & s & -> & Hl & Hs). exists l, s.
  split_and!; [done | by apply Hsub |].
  eapply holds_dict_mono; [done | | done].
  intros ? ?. by apply holds_sensor_mono.
Qed.

Lemma holds_state_mono h h' self (s : MotorSystemState num) :
  (forall l c, h !! l = Some c -> h' !! l = Some c) ->
  holds_state h self s -> holds_state h' self s.
Proof.
  intros Hsub. apply holds_dict_mono; [done|].
  intros ? ?. by apply holds_agent_mono.
Qed.

Lemma keeps_lookup {A : Type} (m : M num A) (P : A -> Prop) h l c :
  keeps (length h) m P -> h !! l = Some c -> fst (m h) !! l = Some c.
Proof.
  intros Hm Hl. destruct (Hm h (Nat.le_refl _)) as (_ & Htake & _).
  rewrite (take_ge h) in Htake by done.
  rewrite <- Htake in Hl. apply lookup_take_Some in Hl as [? _]. done.
Qed.
End StoreFacts.


(** ** The two embeddings agree

    On a store that holds a state, the method on the store does what
    [convert_motor_state] says: it raises the same exception, or returns a
    reference that stands for the same mapping, built from new cells only. *)
Section Refinement.
Local Abbreviation plain_for_in := for_in.
Local Abbreviation plain_convert_motor_state := convert_motor_state.
Import Store.
Context {num : Type}.
Variable zero : num.
Implicit Types (h : store num) (l : loc) (v : hval num)
  (e : dict (hval num)) (a : AgentState.t num) (s : SensorState.t num).

Lemma bind_run {A B : Type} (m : M num A) (f : A -> M num B) h h' x :
  m h = (h', Return x) -> (m ≫= f) h = f x h'.
Proof. intros Hm. unfold mbind, M_bind. by rewrite Hm. Qed.

Lemma bind_run_Raise {A B : Type} (m : M num A) (f : A -> M num B) h h' err :
  m h = (h', Raise err) -> (m ≫= f) h = (h', Raise err).
Proof. intros Hm. unfold mbind, M_bind. by rewrite Hm. Qed.

Lemma lift_bind {A B : Type} (r : result A) (f : A -> M num B) h :
  (lift r ≫= f) h =
  match r with Return x => f x h | Raise err => (h, Raise err) end.
Proof. by destruct r. Qed.

Lemma load_run h l c : h !! l = Some c -> load l h = (h, Return c).
Proof. intros Hl. unfold load. by rewrite Hl. Qed.

Lemma setitem_run h l e k v :
  h !! l = Some (CDict e) ->
  setitem l k v h = (<[l := CDict (dict_set e k v)]> h, Return tt).
Proof. intros Hl. unfold setitem. by rewrite (bind_run _ _ _ _ _ (load_run _ _ _ Hl)). Qed.

(** *** Reading a state that the store holds *)

Lemma holds_dict_keys {V : Type} (holds : store num -> hval num -> V -> Prop)
    h v (d : dict V) :
  holds_dict holds h v d -> keys v h = (h, Return (dict_keys d)).
Proof.
  intros (l & e & -> & Hl & Hall). unfold keys.
  rewrite (bind_run _ _ _ _ _ (load_run _ _ _ Hl)).
  assert (dict_keys e = dict_keys d) as ->; [|done].
  clear Hl. unfold dict_keys.
  induction Hall as [|kv kx e d [Hk _] _ IH]; simpl; congruence.
Qed.

Lemma holds_dict_getitem {V : Type} (holds : store num -> hval num -> V -> Prop)
    h v (d : dict V) k x :
  holds_dict holds h v d -> dict_get d k = Some x ->
  exists hv, getitem v k h = (h, Return hv) /\ holds h hv x.
Proof.
  intros (l & e & -> & Hl & Hall) Hx. unfold getitem.
  rewrite (bind_run _ _ _ _ _ (load_run _ _ _ Hl)).
  assert (exists hv, dict_get e k = Some hv /\ holds h hv x) as (hv & Hhv & ?).
  { clear Hl.
    induction Hall as [|[k1 hv1] [k2 x2] e d [Hk Hh] _ IH]; simpl in *; [done|].
    subst k2. destruct (decide (k = k1)); [|by apply IH].
    injection Hx as <-. eauto. }
  exists hv. split; [|done]. unfold lift, dict_getitem. by rewrite Hhv.
Qed.

Lemma holds_agent_sensors h v a :
  holds_agent h v a ->
  exists sv, get_sensors v h = (h, Return sv) /\
    holds_dict holds_sensor h sv (AgentState.sensors a).
Proof.
  intros (l & sv & -> & Hl & Hs). exists sv. split; [|done].
  unfold get_sensors. by rewrite (bind_run _ _ _ _ _ (load_run _ _ _ Hl)).
Qed.

Lemma holds_agent_position h v a :
  holds_agent h v a -> get_position v h = (h, Return (AgentState.position a)).
Proof.
  intros (l & sv & -> & Hl & Hs).
  unfold get_position. by rewrite (bind_run _ _ _ _ _ (load_run _ _ _ Hl)).
Qed.

Lemma holds_agent_rotation h v a :
  holds_agent h v a -> get_rotation v h = (h, Return (AgentState.rotation a)).
Proof.
  intros (l & sv & -> & Hl & Hs).
  unfold get_rotation. by rewrite (bind_run _ _ _ _ _ (load_run _ _ _ Hl)).
Qed.

Lemma holds_sensor_position h v s :
  holds_sensor h v s -> get_position v h = (h, Return (SensorState.position s)).
Proof.
  intros (l & -> & Hl).
  unfold get_position. by rewrite (bind_run _ _ _ _ _ (load_run _ _ _ Hl)).
Qed.

Lemma holds_sensor_rotation h v s :
  holds_sensor h v s -> get_rotation v h = (h, Return (SensorState.rotation s)).
Proof.
  intros (l & -> & Hl).
  unfold get_rotation. by rewrite (bind_run _ _ _ _ _ (load_run _ _ _ Hl)).
Qed.

(** *** Values that the store stands for *)

Lemma models_mono h h' lo lo' v x :
  lo' <= lo ->
  (forall l c, lo <= l -> h !! l = Some c -> h' !! l = Some c) ->
  models h lo v x -> models h' lo' v x.
Proof.
  intros Hlo Hsub. revert v.
  induction x as [| | | |xs IH|xs|d IH] using value_ind;
    intros v Hm; inversion Hm as [|l e d' Hl Hcell Hall]; subst;
    try by constructor.
  econstructor; [lia | by apply Hsub |].
  clear Hcell Hm. revert e Hall.
  induction IH as [|[k x] d Hx _ IHd]; intros e Hall.
  - inversion Hall. constructor.
  - inversion Hall as [|[k' v'] ? e' ? [Hk Hv] Hrest]; subst.
    constructor; [split; [done | by apply Hx] | by apply IHd].
Qed.

Lemma entry_models_set h lo e (d : dict (value num)) k v x :
  Forall2 (entry_models h lo) e d -> models h lo v x ->
  Forall2 (entry_models h lo) (dict_set e k v) (dict_set d k x).
Proof.
  intros Hall Hv.
  induction Hall as [|[k1 v1] [k2 x2] e d [Hk Hm] Hall IH]; simpl in *.
  - by repeat constructor.
  - subst k2. destruct (decide (k = k1)).
    + constructor; [by split | done].
    + constructor; [by split | done].
Qed.

Lemma entry_models_mono h h' lo lo' e (d : dict (value num)) :
  lo' <= lo ->
  (forall l c, lo <= l -> h !! l = Some c -> h' !! l = Some c) ->
  Forall2 (entry_models h lo) e d -> Forall2 (entry_models h' lo') e d.
Proof.
  intros Hlo Hsub Hall. eapply Forall2_impl; [exact Hall|].
  intros kv kx [? ?]. split; [done|]. by eapply models_mono.
Qed.

Lemma models_data_fields h lo (fields : dict (value num)) :
  Forall2 (entry_models h lo)
    (map (fun kx => (fst kx, HData (snd kx))) fields) fields.
Proof.
  induction fields as [|[k x] fields IH]; simpl; constructor; [|done].
  split; [done|]. constructor.
Qed.

(** *** The loop over the sensors *)

Local Ltac simpl_result :=
  cbn [mbind result_bind mret result_ret fmap result_fmap].

Local Abbreviation sensor_body agent_state sensors :=
  (fun sensor_id =>
     agent_sensors ← get_sensors agent_state;
     sensor_state ← getitem agent_sensors sensor_id;
     position ← get_position sensor_state;
     position ← lift (py_list position);
     rotation ← get_rotation sensor_state;
     real ← lift (attr_real rotation);
     rotation ← get_rotation sensor_state;
     imag ← lift (attr_imag zero rotation);
     imag ← lift (py_list imag);
     record ← alloc (CDict [
       ("position", HData (np_array position));
       ("rotation", HData (VList ([real] ++ map VFloat imag)))
     ]);
     setitem sensors sensor_id (HRef record)) (only parsing).

Lemma lookup_alloc_old h c l c' :
  h !! l = Some c' -> (h ++ [c]) !! l = Some c'.
Proof. apply lookup_app_l_Some. Qed.

Lemma lookup_alloc_new h c : (h ++ [c]) !! length h = Some c.
Proof. by rewrite list_lookup_middle. Qed.

Lemma sensor_body_run h av a sd e k s :
  holds_agent h av a ->
  dict_get (AgentState.sensors a) k = Some s ->
  h !! sd = Some (CDict e) ->
  match sensor_entry zero s with
  | Return x =>
      exists fields, x = VDict fields /\
        sensor_body av sd k h =
          (<[sd := CDict (dict_set e k (HRef (length h)))]>
             (h ++ [CDict (map (fun kx => (fst kx, HData (snd kx))) fields)]),
           Return tt)
  | Raise err => sensor_body av sd k h = (h, Raise err)
  end.
Proof.
  intros Hav Hs Hsd.
  destruct (holds_agent_sensors _ _ _ Hav) as (sv & Hgs & Hsv).
  destruct (holds_dict_getitem _ _ _ _ _ _ Hsv Hs) as (hv & Hgi & Hhv).
  unfold sensor_entry, pose_fields. cbv beta.
  rewrite (bind_run _ _ _ _ _ Hgs), (bind_run _ _ _ _ _ Hgi).
  rewrite (bind_run _ _ _ _ _ (holds_sensor_position _ _ _ Hhv)), lift_bind.
  destruct (py_list (SensorState.position s)) as [position|err];
    simpl_result; [|done].
  rewrite (bind_run _ _ _ _ _ (holds_sensor_rotation _ _ _ Hhv)), lift_bind.
  destruct (attr_real (SensorState.rotation s)) as [real|err];
    simpl_result; [|done].
  rewrite (bind_run _ _ _ _ _ (holds_sensor_rotation _ _ _ Hhv)), lift_bind.
  destruct (attr_imag zero (SensorState.rotation s)) as [imag|err];
    simpl_result; [|done].
  rewrite lift_bind.
  destruct (py_list imag) as [imag'|err]; simpl_result; [|done].
  eexists. split; [reflexivity|].
  erewrite bind_run by reflexivity.
  by rewrite (setitem_run _ _ e) by by apply lookup_alloc_old.
Qed.

Lemma sensor_loop_run h0 av a sd ks :
  holds_agent h0 av a -> length h0 <= sd ->
  (forall k, k ∈ ks -> k ∈ dict_keys (AgentState.sensors a)) ->
  forall h e acc,
    (forall l c, h0 !! l = Some c -> h !! l = Some c) ->
    h !! sd = Some (CDict e) ->
    Forall2 (entry_models h (S sd)) e acc ->
    match plain_for_in ks
            (store_under (fun k =>
               dict_getitem (AgentState.sensors a) k ≫= sensor_entry zero)) acc
    with
    | Return acc' =>
        exists h' e', Store.for_in ks (sensor_body av sd) h = (h', Return tt) /\
          (forall l c, l <> sd -> h !! l = Some c -> h' !! l = Some c) /\
          h' !! sd = Some (CDict e') /\
          Forall2 (entry_models h' (S sd)) e' acc'
    | Raise err => exists h', Store.for_in ks (sensor_body av sd) h = (h', Raise err)
    end.
Proof.
  intros Hav Hfresh. induction ks as [|k ks IH]; intros Hks h e acc Hold Hsd Hacc.
  - simpl. exists h, e. by split_and!.
  - rewrite for_in_cons.
    destruct (dict_getitem_keys (AgentState.sensors a) k) as (s & Hs & Hitem).
    { apply Hks, list_elem_of_here. }
    assert (holds_agent h av a) as Hav' by by eapply holds_agent_mono.
    pose proof (sensor_body_run h av a sd e k s Hav' Hs Hsd) as Hbody.
    change (Store.for_in (k :: ks) (sensor_body av sd) h)
      with ((sensor_body av sd k ≫= fun _ => Store.for_in ks (sensor_body av sd)) h).
    destruct (sensor_entry zero s) as [x|err] eqn:Hentry.
    2: { rewrite (store_under_Raise _ k acc err) by by rewrite Hitem.
         exists h. by apply bind_run_Raise. }
    rewrite (store_under_Return _ k acc x) by by rewrite Hitem.
    rewrite bind_Return.
    destruct Hbody as (fields & -> & Hbody).
    rewrite (bind_run _ _ _ _ _ Hbody).
    set (rec := CDict (map (fun kx => (fst kx, HData (snd kx))) fields)) in *.
    set (h1 := <[sd := CDict (dict_set e k (HRef (length h)))]> (h ++ [rec])) in *.
    assert (sd < length h) as Hlt by by eapply lookup_lt_Some.
    assert (forall l c, l <> sd -> h !! l = Some c -> h1 !! l = Some c) as Hstep.
    { intros l c Hne Hl. unfold h1.
      rewrite list_lookup_insert_ne by done. by apply lookup_alloc_old. }
    assert (h1 !! sd = Some (CDict (dict_set e k (HRef (length h))))) as Hsd1.
    { apply list_lookup_insert_eq. rewrite length_app. simpl. lia. }
    assert (Forall2 (entry_models h1 (S sd))
              (dict_set e k (HRef (length h))) (dict_set acc k (VDict fields)))
      as Hacc1.
    { apply entry_models_set.
      - eapply entry_models_mono; [reflexivity | | exact Hacc].
        intros l c Hl. apply Hstep. lia.
      - apply models_ref with (e := map (fun kx => (fst kx, HData (snd kx))) fields);
          [lia | | apply models_data_fields].
        unfold h1. rewrite list_lookup_insert_ne by lia. apply lookup_alloc_new. }
    assert (forall l c, h0 !! l = Some c -> h1 !! l = Some c) as Hold1.
    { intros l c Hl. apply Hstep; [|by apply Hold].
      apply lookup_lt_Some in Hl. lia. }
    specialize (IH (fun k' Hk' => Hks k' (list_elem_of_further _ _ _ Hk'))
                  h1 _ _ Hold1 Hsd1 Hacc1).
    match type of IH with
    | match ?r with _ => _ end => destruct r as [acc'|err]; [|done]
    end.
    destruct IH as (h' & e' & Hrun & Hkeep & Hsd' & Hacc').
    exists h', e'. split_and!; [done | | done | done].
    intros l c Hne Hl. by apply Hkeep, Hstep.
Qed.

(** *** The loop over the agents *)

Local Abbreviation agent_steps agent_state state_copy agent_id :=
  (sensors ← alloc (CDict []);
   agent_sensors ← get_sensors agent_state;
   sensor_ids ← keys agent_sensors;
   Store.for_in sensor_ids (sensor_body agent_state sensors);;
   position ← get_position agent_state;
   position ← lift (py_list position);
   rotation ← get_rotation agent_state;
   real ← lift (attr_real rotation);
   rotation ← get_rotation agent_state;
   imag ← lift (attr_imag zero rotation);
   imag ← lift (py_list imag);
   record ← alloc (CDict [
     ("position", HData (np_array position));
     ("rotation", HData (VList ([real] ++ map VFloat imag)));
     ("sensors", HRef sensors)
   ]);
   setitem state_copy agent_id (HRef record)) (only parsing).

Local Abbreviation agent_body self state_copy :=
  (fun agent_id =>
     agent_state ← getitem self agent_id;
     agent_steps agent_state state_copy agent_id) (only parsing).

Lemma agent_body_run h av a c e k :
  holds_agent h av a ->
  h !! c = Some (CDict e) ->
  match agent_entry zero a with
  | Return x =>
      exists h1 r,
        agent_steps av c k h = (h1, Return tt) /\
        h1 !! c = Some (CDict (dict_set e k (HRef r))) /\
        models h1 (S c) (HRef r) x /\
        (forall l cell, l <> c -> h !! l = Some cell -> h1 !! l = Some cell)
  | Raise err => exists h1, agent_steps av c k h = (h1, Raise err)
  end.
Proof.
  intros Hav Hc.
  assert (c < length h) as Hclt by by eapply lookup_lt_Some.
  set (sd := length h). set (ha := h ++ [CDict []]).
  assert (forall l cell, h !! l = Some cell -> ha !! l = Some cell) as Hha.
  { intros l cell. apply lookup_alloc_old. }
  assert (holds_agent ha av a) as Hava by by eapply holds_agent_mono.
  destruct (holds_agent_sensors _ _ _ Hava) as (sv & Hgs & Hsv).
  erewrite bind_run by reflexivity. fold sd ha.
  rewrite (bind_run _ _ _ _ _ Hgs).
  rewrite (bind_run _ _ _ _ _ (holds_dict_keys _ _ _ _ Hsv)).
  pose proof (sensor_loop_run h av a sd (dict_keys (AgentState.sensors a))
                Hav (Nat.le_refl _) (fun k Hk => Hk) ha [] [] Hha
                (lookup_alloc_new h _) (List.Forall2_nil _)) as Hloop.
  unfold agent_entry, sensors_entry, map_items.
  match type of Hloop with
  | match ?r with _ => _ end => destruct r as [sacc|err]; simpl_result
  end.
  2: { destruct Hloop as [h' Hloop]. exists h'. by apply bind_run_Raise. }
  destruct Hloop as (h2 & e2 & Hloop & Hkeep & Hsd & Hsacc).
  rewrite (bind_run _ _ _ _ _ Hloop).
  assert (forall l cell, h !! l = Some cell -> h2 !! l = Some cell) as Hh2.
  { intros l cell Hl. apply Hkeep; [|by apply Hha].
    apply lookup_lt_Some in Hl. unfold sd. lia. }
  assert (holds_agent h2 av a) as Hav2 by by eapply holds_agent_mono.
  unfold pose_fields.
  rewrite (bind_run _ _ _ _ _ (holds_agent_position _ _ _ Hav2)), lift_bind.
  destruct (py_list (AgentState.position a)) as [position|err];
    simpl_result; [|by eexists].
  rewrite (bind_run _ _ _ _ _ (holds_agent_rotation _ _ _ Hav2)), lift_bind.
  destruct (attr_real (AgentState.rotation a)) as [real|err];
    simpl_result; [|by eexists].
  rewrite (bind_run _ _ _ _ _ (holds_agent_rotation _ _ _ Hav2)), lift_bind.
  destruct (attr_imag zero (AgentState.rotation a)) as [imag|err];
    simpl_result; [|by eexists].
  rewrite lift_bind.
  destruct (py_list imag) as [imag'|err]; simpl_result; [|by eexists].
  erewrite bind_run by reflexivity.
  set (rec := CDict [("position", HData (np_array position));
                     ("rotation", HData (VList ([real] ++ map VFloat imag')));
                     ("sensors", HRef sd)]).
  assert (sd < length h2) as Hsdlt by by eapply lookup_lt_Some.
  rewrite (setitem_run _ _ e) by by apply lookup_alloc_old, Hh2.
  set (h1 := <[c := CDict (dict_set e k (HRef (length h2)))]> (h2 ++ [rec])).
  assert (forall l cell, l <> c -> h2 !! l = Some cell -> h1 !! l = Some cell)
    as Hh1.
  { intros l cell Hne Hl. unfold h1.
    rewrite list_lookup_insert_ne by done. by apply lookup_alloc_old. }
  exists h1, (length h2). split_and!; [done | | |].
  - apply list_lookup_insert_eq. rewrite length_app. simpl.
    apply Hh2, lookup_lt_Some in Hc. lia.
  - eapply models_ref; [unfold sd in *; lia | |].
    { unfold h1. rewrite list_lookup_insert_ne by (unfold sd in *; lia).
      apply lookup_alloc_new. }
    repeat constructor; simpl.
    eapply models_ref; [unfold sd; lia | apply Hh1; [unfold sd; lia | exact Hsd] |].
    eapply entry_models_mono; [| |exact Hsacc]; [unfold sd; lia|].
    intros l cell Hl. apply Hh1. unfold sd in *. lia.
  - intros l cell Hne Hl. by apply Hh1, Hh2.
Qed.

Lemma agent_loop_run h0 self (st : MotorSystemState num) c ks :
  holds_state h0 self st -> length h0 <= c ->
  (forall k, k ∈ ks -> k ∈ dict_keys st) ->
  forall h e acc,
    (forall l cell, h0 !! l = Some cell -> h !! l = Some cell) ->
    h !! c = Some (CDict e) ->
    Forall2 (entry_models h (S c)) e acc ->
    match plain_for_in ks
            (store_under (fun k => dict_getitem st k ≫= agent_entry zero)) acc
    with
    | Return acc' =>
        exists h' e', Store.for_in ks (agent_body self c) h = (h', Return tt) /\
          h' !! c = Some (CDict e') /\
          Forall2 (entry_models h' (S c)) e' acc'
    | Raise err => exists h', Store.for_in ks (agent_body self c) h = (h', Raise err)
    end.
Proof.
  intros Hst Hfresh. induction ks as [|k ks IH]; intros Hks h e acc Hold Hc Hacc.
  - simpl. exists h, e. by split_and!.
  - rewrite for_in_cons.
    destruct (dict_getitem_keys st k) as (a & Ha & Hitem).
    { apply Hks, list_elem_of_here. }
    assert (holds_state h self st) as Hst' by by eapply holds_state_mono.
    destruct (holds_dict_getitem _ _ _ _ _ _ Hst' Ha) as (av & Hgi & Hav).
    pose proof (agent_body_run h av a c e k Hav Hc) as Hbody.
    change (Store.for_in (k :: ks) (agent_body self c) h)
      with ((agent_body self c k ≫= fun _ => Store.for_in ks (agent_body self c)) h).
    destruct (agent_entry zero a) as [x|err] eqn:Hentry.
    2: { rewrite (store_under_Raise _ k acc err) by by rewrite Hitem.
         destruct Hbody as [h1 Hbody]. exists h1.
         apply bind_run_Raise. cbv beta. by rewrite (bind_run _ _ _ _ _ Hgi). }
    rewrite (store_under_Return _ k acc x) by by rewrite Hitem.
    rewrite bind_Return.
    destruct Hbody as (h1 & r & Hbody & Hc1 & Hx & Hkeep).
    assert (agent_body self c k h = (h1, Return tt)) as Hk.
    { cbv beta. by rewrite (bind_run _ _ _ _ _ Hgi). }
    rewrite (bind_run _ _ _ _ _ Hk).
    assert (forall l cell, h0 !! l = Some cell -> h1 !! l = Some cell) as Hold1.
    { intros l cell Hl. apply Hkeep; [|by apply Hold].
      apply lookup_lt_Some in Hl. lia. }
    assert (Forall2 (entry_models h1 (S c)) (dict_set e k (HRef r)) (dict_set acc k x))
      as Hacc1.
    { apply entry_models_set; [|done].
      eapply entry_models_mono; [reflexivity | | exact Hacc].
      intros l cell Hl. apply Hkeep. lia. }
    specialize (IH (fun k' Hk' => Hks k' (list_elem_of_further _ _ _ Hk'))
                  h1 _ _ Hold1 Hc1 Hacc1).
    match type of IH with
    | match ?res with _ => _ end => destruct res as [acc'|err]; [|done]
    end.
    destruct IH as (h' & e' & Hrun & Hc' & Hacc').
    exists h', e'. by split_and!.
Qed.

(** The method on the store computes what [convert_motor_state] says, in
    cells that were not in the store before. *)
Lemma convert_motor_state_store h self (st : MotorSystemState num) :
  holds_state h self st ->
  match plain_convert_motor_state zero st with
  | Return out =>
      exists h' l, Store.convert_motor_state zero self h = (h', Return l) /\
        models h' (length h) (HRef l) (VDict out)
  | Raise err =>
      exists h', Store.convert_motor_state zero self h = (h', Raise err)
  end.
Proof.
  intros Hst. rewrite convert_motor_state_entries. unfold map_items.
  unfold Store.convert_motor_state.
  set (c := length h). set (hc := h ++ [CDict []]).
  assert (forall l cell, h !! l = Some cell -> hc !! l = Some cell) as Hhc.
  { intros l cell. apply lookup_alloc_old. }
  assert (holds_state hc self st) as Hstc by by eapply holds_state_mono.
  erewrite bind_run by reflexivity. fold c hc.
  rewrite (bind_run _ _ _ _ _ (holds_dict_keys _ _ _ _ Hstc)).
  pose proof (agent_loop_run h self st c (dict_keys st) Hst (Nat.le_refl _)
                (fun k Hk => Hk) hc [] [] Hhc (lookup_alloc_new h _)
                (List.Forall2_nil _)) as Hloop.
  match type of Hloop with
  | match ?res with _ => _ end => destruct res as [out|err]
  end.
  - destruct Hloop as (h' & e' & Hrun & Hc & Hout).
    exists h', c. split.
    + by rewrite (bind_run _ _ _ _ _ Hrun).
    + eapply models_ref; [done | exact Hc |].
      eapply entry_models_mono; [| |exact Hout]; [unfold c; lia | done].
  - destruct Hloop as (h' & Hrun). exists h'. by apply bind_run_Raise.
Qed.

Lemma convert_motor_state_new_cells h self (st : MotorSystemState num) out :
  holds_state h self st ->
  plain_convert_motor_state zero st = Return out ->
  exists h' l, Store.convert_motor_state zero self h = (h', Return l) /\
    h !! l = None /\
    models h' (length h) (HRef l) (VDict out).
Proof.
  intros Hst Hrun. pose proof (convert_motor_state_store h self st Hst) as Hstore.
  rewrite Hrun in Hstore. destruct Hstore as (h' & l & Hstore & Hm).
  exists h', l. split_and!; [done | | done].
  inversion Hm; subst. by apply lookup_ge_None.
Qed.
End Refinement.

(** The example, run on the store and read back. *)
Lemma example_store_run :
  Store.holds_state Store.example_store (Store.HRef 3) example_state /\
  exists h' l,
    Store.convert_motor_state 0%Q (Store.HRef 3) Store.example_store
      = (h', Return l) /\
    Store.reify 4 h' (Store.HRef l) = Some (VDict example_output).
Proof.
  split.
  - exists 3, [("agent_id_0", Store.HRef 2)]. split_and!; [done | done |].
    repeat constructor. exists 2, (Store.HRef 1). split_and!; [done | done |].
    exists 1, [("sensor_id_0", Store.HRef 0)]. split_and!; [done | done |].
    repeat constructor. by exists 0.
  - eexists _, _. split; reflexivity.
Qed.

(** ** The claims about [convert_motor_state] *)

Lemma dict_get_app {V : Type} (d1 d2 : dict V) k :
  dict_get (d1 ++ d2) k =
  match dict_get d1 k with Some v => Some v | None => dict_get d2 k end.
Proof.
  induction d1 as [|[k0 v0] d1 IH]; simpl; [done|].
  by destruct (decide (k = k0)).
Qed.

Lemma dict_get_elem_of {V : Type} (d : dict V) k v :
  NoDup (dict_keys d) -> (k, v) ∈ d -> dict_get d k = Some v.
Proof.
  unfold dict_keys. induction d as [|[k0 v0] d IH]; simpl.
  - by intros _ ?%elem_of_nil.
  - intros [Hk0 Hnd]%NoDup_cons [[= -> ->]|Hin]%elem_of_cons.
    + by rewrite decide_True.
    + destruct (decide (k = k0)) as [->|Hne]; [|by apply IH].
      destruct Hk0. apply list_elem_of_fmap. by exists (k0, v).
Qed.

Lemma result_rel_refl {A : Type} (Q : A -> A -> Prop) (r : result A) :
  (forall x, Q x x) -> result_rel Q r r.
Proof. intros HQ. destruct r; simpl; auto. Qed.

(** On a valid state the method returns, and every entry has the shape of
    the two dict literals. *)
Lemma convert_motor_state_valid (num : Type) (zero : num)
    (self : MotorSystemState num) :
  valid_state self = true ->
  exists out, convert_motor_state zero self = Return out /\
    forall agent_id a, dict_get self agent_id = Some a ->
      exists px py pz w x y z sens,
        AgentState.position a = PVector3 px py pz /\
        AgentState.rotation a = PQuat w x y z /\
        dict_get out agent_id = Some (VDict [
          ("position", VArray [px; py; pz]);
          ("rotation", VList [VFloat w; VFloat x; VFloat y; VFloat z]);
          ("sensors", VDict sens)]) /\
        forall sensor_id s,
          dict_get (AgentState.sensors a) sensor_id = Some s ->
          exists px' py' pz' w' x' y' z',
            SensorState.position s = PVector3 px' py' pz' /\
            SensorState.rotation s = PQuat w' x' y' z' /\
            dict_get sens sensor_id = Some (VDict [
              ("position", VArray [px'; py'; pz']);
              ("rotation", VList [VFloat w'; VFloat x'; VFloat y'; VFloat z'])]).
Proof.
  intros Hvalid.
  destruct (convert_motor_state_total zero self) as [out Hrun];
    [by apply valid_state_ok|].
  exists out. split; [done|]. intros agent_id a Ha.
  apply convert_motor_state_Return in Hrun as (_ & _ & Hrun).
  destruct (Hrun _ _ Ha) as (fields & sens & Hfields & Hout & _ & _ & Hsens).
  destruct (valid_state_agent _ _ _ Hvalid Ha)
    as (px & py & pz & w & x & y & z & Hp & Hr & Hs).
  exists px, py, pz, w, x, y, z, sens. split_and!; [done | done | |].
  - rewrite Hp, Hr in Hfields. injection Hfields as <-. exact Hout.
  - intros sensor_id s Hget.
    destruct (Hs _ _ Hget) as (px' & py' & pz' & w' & x' & y' & z' & Hp' & Hr').
    exists px', py', pz', w', x', y', z'. split_and!; [done | done |].
    destruct (Hsens _ _ Hget) as (sfields & Hsf & ->).
    rewrite Hp', Hr' in Hsf. by injection Hsf as <-.
Qed.

(** C1: on a state whose positions are 3-component vectors and whose
    rotations are quaternions, [convert_motor_state] returns, and under
    every agent it stores the rotation as the list [[w, x, y, z]], scalar
    part first, and the position as the array of the vector's three
    components, and likewise for every sensor of the agent; on the example
    of the specification the rotations are [[0, 0, 0, 1]] for the agent and
    [[1, 0, 0, 0]] for its sensor. *)
Theorem convert_motor_state_wxyz :
  (forall (num : Type) (zero : num) (self : MotorSystemState num),
     valid_state self = true ->
     exists out, convert_motor_state zero self = Return out /\
       forall agent_id a, dict_get self agent_id = Some a ->
         exists px py pz w x y z sens,
           AgentState.position a = PVector3 px py pz /\
           AgentState.rotation a = PQuat w x y z /\
           dict_get out agent_id = Some (VDict [
             ("position", VArray [px; py; pz]);
             ("rotation", VList [VFloat w; VFloat x; VFloat y; VFloat z]);
             ("sensors", VDict sens)]) /\
           forall sensor_id s,
             dict_get (AgentState.sensors a) sensor_id = Some s ->
             exists px' py' pz' w' x' y' z',
               SensorState.position s = PVector3 px' py' pz' /\
               SensorState.rotation s = PQuat w' x' y' z' /\
               dict_get sens sensor_id = Some (VDict [
                 ("position", VArray [px'; py'; pz']);
                 ("rotation", VList [VFloat w'; VFloat x'; VFloat y'; VFloat z'])]))
  /\ convert_motor_state 0%Q example_state = Return example_output.
Proof.
  split; [|reflexivity].
  intros num zero self Hvalid. by apply convert_motor_state_valid.
Qed.

Lemma convert_motor_state_wxyz_witness :
  valid_state example_state = true /\
  exists out, convert_motor_state 0%Q example_state = Return out /\
    forall agent_id a, dict_get example_state agent_id = Some a ->
      exists px py pz w x y z sens,
        AgentState.position a = PVector3 px py pz /\
        AgentState.rotation a = PQuat w x y z /\
        dict_get out agent_id = Some (VDict [
          ("position", VArray [px; py; pz]);
          ("rotation", VList [VFloat w; VFloat x; VFloat y; VFloat z]);
          ("sensors", VDict sens)]) /\
        forall sensor_id s,
          dict_get (AgentState.sensors a) sensor_id = Some s ->
          exists px' py' pz' w' x' y' z',
            SensorState.position s = PVector3 px' py' pz' /\
            SensorState.rotation s = PQuat w' x' y' z' /\
            dict_get sens sensor_id = Some (VDict [
              ("position", VArray [px'; py'; pz']);
              ("rotation", VList [VFloat w'; VFloat x'; VFloat y'; VFloat z'])]).
Proof.
  split; [reflexivity|].
  apply (proj1 convert_motor_state_wxyz Q 0%Q example_state). reflexivity.
Defined.

Section Shape.
Context {num : Type}.
Variable zero : num.

Lemma mapping_of_entries (leaf : value num -> bool) (d : dict (value num)) :
  (forall k v, (k, v) ∈ d -> leaf v || mapping_of leaf v = true) ->
  mapping_of leaf (VDict d) = true.
Proof.
  intros Hall. simpl. apply forallb_forall. intros [k v] Hin.
  apply (Hall k). by apply list_elem_of_In.
Qed.

(** On a valid state every entry of the output is a mapping whose leaves
    are lists of floats and arrays of floats. *)
Lemma convert_motor_state_numeric (self : MotorSystemState num) out :
  valid_state self = true ->
  convert_motor_state zero self = Return out ->
  mapping_of numeric_seq (VDict out) = true.
Proof.
  intros Hvalid Hrun.
  destruct (convert_motor_state_valid num zero self Hvalid)
    as (out' & Hrun' & Hshape).
  assert (out' = out) as -> by congruence. clear Hrun'.
  apply convert_motor_state_Return in Hrun as (Hkeys & Hnd & Hagents).
  apply mapping_of_entries. intros agent_id v Hin.
  assert (agent_id ∈ dict_keys self) as [a Ha]%dict_get_is_Some.
  { apply Hkeys. apply list_elem_of_fmap. by exists (agent_id, v). }
  apply (dict_get_elem_of _ _ _ Hnd) in Hin.
  destruct (Hshape _ _ Ha)
    as (px & py & pz & w & x & y & z & sens & Hp & Hr & Hout & Hsens).
  destruct (Hagents _ _ Ha)
    as (fields & sens' & Hfields & Hout' & Hskeys & Hsnd & _).
  rewrite Hout in Hin. injection Hin as <-.
  rewrite Hp, Hr in Hfields. injection Hfields as <-.
  rewrite Hout in Hout'. injection Hout' as <-.
  apply orb_true_iff. right.
  apply mapping_of_entries. intros field v [[= -> ->]|Hin]%elem_of_cons; [done|].
  apply elem_of_cons in Hin as [[= -> ->]|Hin]; [done|].
  apply list_elem_of_singleton in Hin as [= -> ->].
  apply orb_true_iff. right.
  apply mapping_of_entries. intros sensor_id v Hin.
  assert (sensor_id ∈ dict_keys (AgentState.sensors a)) as [s Hs]%dict_get_is_Some.
  { apply Hskeys. apply list_elem_of_fmap. by exists (sensor_id, v). }
  apply (dict_get_elem_of _ _ _ Hsnd) in Hin.
  destruct (Hsens _ _ Hs) as (px' & py' & pz' & w' & x' & y' & z' & _ & _ & Hv).
  rewrite Hv in Hin. injection Hin as <-. done.
Qed.
End Shape.

(** C2, as amended: on a valid state the output is a mapping of mappings
    whose leaves are sequences of floats, the rotation a list and the
    position a numpy array (the type [value] has no vector or quaternion
    object at all); in a store that holds the state, it is made of cells
    that were not there before; with the arrays written as lists, it goes
    through JSON and comes back as that same list form. *)
Theorem convert_motor_state_json_safe (num : Type) (zero : num)
    (self : MotorSystemState num) :
  valid_state self = true ->
  exists out, convert_motor_state zero self = Return out /\
    mapping_of numeric_seq (VDict out) = true /\
    (forall h ref, Store.holds_state h ref self ->
       exists h' l, Store.convert_motor_state zero ref h = (h', Return l) /\
         Store.models h' (length h) (Store.HRef l) (VDict out)) /\
    json_roundtrip (arrays_tolist (VDict out)) = Return (arrays_tolist (VDict out)).
Proof.
  intros Hvalid.
  destruct (convert_motor_state_total zero self) as [out Hrun];
    [by apply valid_state_ok|].
  exists out. split_and!; [done | | | apply json_roundtrip_tolist].
  - by apply (convert_motor_state_numeric zero self).
  - intros h ref Hst.
    destruct (convert_motor_state_new_cells zero h ref self out Hst Hrun)
      as (h' & l & ? & _ & ?).
    by exists h', l.
Qed.

Lemma convert_motor_state_json_safe_witness :
  valid_state example_state = true /\
  exists out, convert_motor_state 0%Q example_state = Return out /\
    mapping_of numeric_seq (VDict out) = true /\
    json_roundtrip (arrays_tolist (VDict out)) = Return (arrays_tolist (VDict out)).
Proof.
  split; [reflexivity|].
  destruct (convert_motor_state_json_safe Q 0%Q example_state eq_refl)
    as (out & Hrun & Hshape & _ & Hjson).
  exists out. split_and!; [exact Hrun | exact Hshape | exact Hjson].
Defined.

(** C2 as stated fails on the example of the specification: the position
    is a numpy array, not a primitive sequence, [dumps] raises a
    [TypeError] on it, and what comes back from an encoder that writes
    arrays as lists is not equal to the output. *)
Lemma example_output_not_json_safe :
  exists out, convert_motor_state 0%Q example_state = Return out /\
    mapping_of primitive_seq (VDict out) = false /\
    json_roundtrip (VDict out) = Raise TypeError /\
    json_roundtrip (arrays_tolist (VDict out)) <> Return (VDict out).
Proof.
  exists example_output. split_and!; [reflexivity | reflexivity | reflexivity |].
  vm_compute. discriminate.
Qed.

(** C3: the call leaves every object that was in the store as it was,
    whether it returns or raises: the state mapping, each [AgentState] with
    its [sensors], [position], [rotation] and [motor_only_step], and each
    [SensorState] with its [position] and [rotation]; the store still holds
    the state it held, and the mapping returned is a cell that was not
    there before. *)
Theorem convert_motor_state_frame (num : Type) (zero : num)
    (self : Store.hval num) (h : Store.store num) :
  (forall l c, h !! l = Some c ->
     fst (Store.convert_motor_state zero self h) !! l = Some c) /\
  (forall s, Store.holds_state h self s ->
     Store.holds_state (fst (Store.convert_motor_state zero self h)) self s) /\
  (forall l, snd (Store.convert_motor_state zero self h) = Return l ->
     h !! l = None).
Proof.
  pose proof (keeps_convert_motor_state zero (length h) self) as Hkeeps.
  assert (forall l c, h !! l = Some c ->
            fst (Store.convert_motor_state zero self h) !! l = Some c) as Hsub.
  { intros l c. by apply (keeps_lookup _ _ _ _ _ Hkeeps). }
  split_and!; [done | |].
  - intros s. by apply holds_state_mono.
  - intros l Hl. destruct (Hkeeps h (Nat.le_refl _)) as (_ & _ & Hfresh).
    apply lookup_ge_None. by apply Hfresh.
Qed.

Lemma convert_motor_state_frame_witness :
  Store.example_store !! 2 =
    Some (Store.CAgentState (Store.HRef 1) (PVector3 1 2 3)%Q (PQuat 0 0 0 1)%Q false) /\
  fst (Store.convert_motor_state 0%Q (Store.HRef 3) Store.example_store) !! 2 =
    Some (Store.CAgentState (Store.HRef 1) (PVector3 1 2 3)%Q (PQuat 0 0 0 1)%Q false).
Proof.
  split; [reflexivity|].
  apply (proj1 (convert_motor_state_frame Q 0%Q (Store.HRef 3) Store.example_store)).
  reflexivity.
Defined.

Section Equality.
Context {num : Type}.
Variable zero : num.

Lemma sensor_entry_rel (s1 s2 : SensorState.t num) :
  sensor_eq s1 s2 ->
  result_rel value_eq (sensor_entry zero s1) (sensor_entry zero s2).
Proof. intros ->. apply result_rel_refl, value_eq_refl. Qed.

Lemma agent_entry_rel (a1 a2 : AgentState.t num) :
  agent_eq a1 a2 ->
  result_rel value_eq (agent_entry zero a1) (agent_entry zero a2).
Proof.
  intros (Hsensors & Hp & Hr & _). unfold agent_entry, sensors_entry.
  pose proof (map_items_rel sensor_eq value_eq (sensor_entry zero) _ _
                sensor_entry_rel Hsensors) as Hrel.
  rewrite <- Hp, <- Hr.
  destruct (map_items (sensor_entry zero) (AgentState.sensors a1)) as [sens1|e1];
    destruct (map_items (sensor_entry zero) (AgentState.sensors a2)) as [sens2|e2];
    simpl in Hrel; try done; cbn [mbind result_bind].
  destruct (pose_fields zero (AgentState.position a1) (AgentState.rotation a1))
    as [fields|e]; cbn; [|done].
  constructor. intros k. rewrite !dict_get_app.
  destruct (dict_get fields k) as [v|]; [constructor; apply value_eq_refl|].
  simpl. destruct (decide (k = "sensors")); constructor. by constructor.
Qed.
End Equality.

(** C4: two states that are equal as Python compares them (the same
    agents and sensors under the same identifiers, whatever the insertion
    order of the dictionaries) give equal outcomes: both calls return, and
    the two mappings are equal, or both raise. *)
Theorem convert_motor_state_deterministic (num : Type) (zero : num)
    (s1 s2 : MotorSystemState num) :
  state_eq s1 s2 ->
  outcome_eq (convert_motor_state zero s1) (convert_motor_state zero s2).
Proof.
  intros Heq. rewrite !convert_motor_state_entries.
  pose proof (map_items_rel agent_eq value_eq (agent_entry zero) s1 s2
                (agent_entry_rel zero) Heq) as Hrel.
  unfold outcome_eq.
  destruct (map_items (agent_entry zero) s1), (map_items (agent_entry zero) s2);
    simpl in *; try done.
  by constructor.
Qed.

Lemma two_agents_state_eq : state_eq two_agents_state two_agents_swapped.
Proof.
  intros k. unfold two_agents_state, two_agents_swapped. simpl.
  assert (Hrefl : forall a : AgentState.t Q, agent_eq a a).
  { intros a. split_and!; try done. intros k'.
    destruct (dict_get (AgentState.sensors a) k'); by constructor. }
  destruct (decide (k = "agent_id_1")) as [->|?]; simpl.
  - by constructor.
  - destruct (decide (k = "agent_id_0")) as [->|?]; by constructor.
Qed.

Lemma convert_motor_state_deterministic_witness :
  state_eq two_agents_state two_agents_swapped /\
  outcome_eq (convert_motor_state 0%Q two_agents_state)
    (convert_motor_state 0%Q two_agents_swapped).
Proof.
  split; [exact two_agents_state_eq|].
  apply (convert_motor_state_deterministic Q 0%Q). exact two_agents_state_eq.
Defined.

Section Leniency.
Context {num : Type}.
Variable zero : num.

Lemma py_list_iterable (p : pyobj num) l : py_list p = Return l -> iterable p = true.
Proof. by destruct p. Qed.

Lemma state_ok_set (self : MotorSystemState num) agent_id a' :
  state_ok self ->
  pose_ok (AgentState.position a') (AgentState.rotation a') = true ->
  (forall sensor_id s, dict_get (AgentState.sensors a') sensor_id = Some s ->
     pose_ok (SensorState.position s) (SensorState.rotation s) = true) ->
  state_ok (dict_set self agent_id a').
Proof.
  intros Hok Hp Hs position rotation (k & a0 & Hget & Hpose).
  rewrite dict_get_set in Hget. destruct (decide (k = agent_id)) as [->|Hne].
  - injection Hget as <-.
    destruct Hpose as [[-> ->]|(sensor_id & s & Hget & -> & ->)]; [done|].
    by apply (Hs sensor_id).
  - apply Hok. by exists k, a0.
Qed.

Lemma pose_fields_position position rotation fields l :
  pose_fields zero position rotation = Return fields ->
  py_list position = Return l ->
  dict_get fields "position" = Some (VArray l) /\
  forall sens, dict_get (fields ++ [("sensors", sens)]) "position" = Some (VArray l) /\
               dict_get (fields ++ [("sensors", sens)]) "sensors" = Some sens.
Proof.
  intros Hfields Hl.
  pose proof (pose_fields_spec zero position rotation) as Hspec.
  apply pose_fields_Return in Hfields as Herr. destruct Herr as [Herr _].
  rewrite Herr in Hspec. destruct Hspec as (l' & real & imag & Hl' & _ & _ & Hf).
  rewrite Hf in Hfields. injection Hfields as <-.
  rewrite Hl in Hl'. injection Hl' as <-. done.
Qed.

(** Where an agent is accepted, the same agent with any other position
    that can be iterated is accepted too, and the components go to the
    output as they are. *)
Lemma convert_motor_state_any_position (self : MotorSystemState num)
    out agent_id (a a' : AgentState.t num) l :
  convert_motor_state zero self = Return out ->
  dict_get self agent_id = Some a ->
  AgentState.sensors a' = AgentState.sensors a ->
  AgentState.rotation a' = AgentState.rotation a ->
  py_list (AgentState.position a') = Return l ->
  exists out' fields,
    convert_motor_state zero (dict_set self agent_id a') = Return out' /\
    dict_get out' agent_id = Some (VDict fields) /\
    dict_get fields "position" = Some (VArray l).
Proof.
  intros Hok%convert_motor_state_Return_ok Ha Hsens Hrot Hl.
  assert (state_ok (dict_set self agent_id a')) as Hok'.
  { apply state_ok_set; [done | |].
    - assert (pose_ok (AgentState.position a) (AgentState.rotation a) = true)
        as [_ Hr]%andb_true_iff.
      { apply Hok. exists agent_id, a. split; [done|]. by left. }
      unfold pose_ok. rewrite Hrot, Hr, (py_list_iterable _ _ Hl). done.
    - intros sensor_id s Hs. rewrite Hsens in Hs.
      apply Hok. exists agent_id, a. split; [done|]. right. eauto. }
  destruct (convert_motor_state_total zero _ Hok') as [out' Hrun].
  pose proof Hrun as (_ & _ & Hagents)%convert_motor_state_Return.
  destruct (Hagents agent_id a') as (fields & sens & Hfields & Hout & _);
    [apply dict_get_set_eq|].
  exists out', (fields ++ [("sensors", VDict sens)]). split_and!; [done | done |].
  by apply (pose_fields_position _ _ _ _ Hfields Hl).
Qed.

(** The same for a sensor of an agent. *)
Lemma convert_motor_state_any_sensor_position (self : MotorSystemState num)
    out agent_id (a a' : AgentState.t num) sensor_id (s s' : SensorState.t num) l :
  convert_motor_state zero self = Return out ->
  dict_get self agent_id = Some a ->
  dict_get (AgentState.sensors a) sensor_id = Some s ->
  AgentState.sensors a' = dict_set (AgentState.sensors a) sensor_id s' ->
  AgentState.position a' = AgentState.position a ->
  AgentState.rotation a' = AgentState.rotation a ->
  SensorState.rotation s' = SensorState.rotation s ->
  py_list (SensorState.position s') = Return l ->
  exists out' fields sens sfields,
    convert_motor_state zero (dict_set self agent_id a') = Return out' /\
    dict_get out' agent_id = Some (VDict fields) /\
    dict_get fields "sensors" = Some (VDict sens) /\
    dict_get sens sensor_id = Some (VDict sfields) /\
    dict_get sfields "position" = Some (VArray l).
Proof.
  intros Hok%convert_motor_state_Return_ok Ha Hs Hsens Hpos Hrot Hsrot Hl.
  assert (state_ok (dict_set self agent_id a')) as Hok'.
  { apply state_ok_set; [done | |].
    - rewrite Hpos, Hrot. apply Hok. exists agent_id, a. split; [done|]. by left.
    - intros k s0 Hget. rewrite Hsens, dict_get_set in Hget.
      destruct (decide (k = sensor_id)) as [->|Hne].
      + injection Hget as <-.
        assert (pose_ok (SensorState.position s) (SensorState.rotation s) = true)
          as [_ Hr]%andb_true_iff.
        { apply Hok. exists agent_id, a. split; [done|]. right. eauto. }
        unfold pose_ok. rewrite Hsrot, Hr, (py_list_iterable _ _ Hl). done.
      + apply Hok. exists agent_id, a. split; [done|]. right. eauto. }
  destruct (convert_motor_state_total zero _ Hok') as [out' Hrun].
  pose proof Hrun as (_ & _ & Hagents)%convert_motor_state_Return.
  destruct (Hagents agent_id a') as (fields & sens & Hfields & Hout & _ & _ & Hsensors);
    [apply dict_get_set_eq|].
  destruct (Hsensors sensor_id s') as (sfields & Hsfields & Hsout).
  { rewrite Hsens. apply dict_get_set_eq. }
  pose proof (pose_fields_spec zero (AgentState.position a') (AgentState.rotation a'))
    as Hspec.
  apply pose_fields_Return in Hfields as Herr. destruct Herr as [Herr _].
  rewrite Herr in Hspec. destruct Hspec as (l' & real & imag & Hl' & _ & _ & Hf).
  exists out', (fields ++ [("sensors", VDict sens)]), sens, sfields.
  split_and!; [done | done | | done |].
  - rewrite Hf in Hfields. by injection Hfields as <-.
  - by apply (pose_fields_position _ _ _ _ Hsfields Hl).
Qed.

(** A defective pose makes the call fail, with the exception of a
    defective pose of the state. *)
Lemma convert_motor_state_defect (self : MotorSystemState num) :
  (exists position rotation,
      has_pose self position rotation /\ pose_ok position rotation = false) ->
  exists e position rotation,
    convert_motor_state zero self = Raise e /\
    has_pose self position rotation /\
    pose_error position rotation = Some e /\
    (e = TypeError \/ e = AttributeError).
Proof.
  intros (position & rotation & Hpose & Hbad).
  destruct (convert_motor_state zero self) as [out|e] eqn:Hrun.
  - apply convert_motor_state_Return_ok in Hrun. apply Hrun in Hpose. congruence.
  - pose proof Hrun as (p & r & Hp & He)%convert_motor_state_Raise.
    exists e, p, r. split_and!; [done | done | done |].
    by apply pose_error_kind in He.
Qed.
End Leniency.

(** C5 as stated fails: a position with two components does not make the
    call fail, the two components are copied. *)
Lemma short_position_accepted :
  (exists l, py_list (PSeq [1; 2]%Q) = Return l /\ length l <> 3) /\
  has_pose short_position_state (PSeq [1; 2]%Q) (PQuat 1 0 0 0)%Q /\
  convert_motor_state 0%Q short_position_state =
    Return [("agent_id_0", VDict [
      ("position", VArray [1; 2]%Q);
      ("rotation", VList [VFloat 1; VFloat 0; VFloat 0; VFloat 0]%Q);
      ("sensors", VDict [])])].
Proof.
  split_and!; [by exists [1; 2]%Q | | reflexivity].
  exists "agent_id_0", (AgentState.init [] (PSeq [1; 2]%Q) (PQuat 1 0 0 0)%Q None).
  split; [reflexivity|]. by left.
Qed.

(** C5, as amended: the call fails whenever some position cannot be
    iterated, some rotation has no [real] or [imag], or its [imag] cannot be
    iterated, and the exception is that of such a pose of the state: a
    [TypeError] where iteration fails, an [AttributeError] where the
    attribute is missing.  The number of components is not looked at: where
    an agent or a sensor is accepted, it is accepted with any other
    position that can be iterated in place of its own, whatever the number
    of components, and a position goes to the output with the components it
    has. *)
Theorem convert_motor_state_raises (num : Type) (zero : num)
    (self : MotorSystemState num) :
  ((exists position rotation,
      has_pose self position rotation /\ pose_ok position rotation = false) ->
   exists e position rotation,
     convert_motor_state zero self = Raise e /\
     has_pose self position rotation /\
     pose_error position rotation = Some e /\
     (e = TypeError \/ e = AttributeError)) /\
  (forall out agent_id a a' l,
     convert_motor_state zero self = Return out ->
     dict_get self agent_id = Some a ->
     AgentState.sensors a' = AgentState.sensors a ->
     AgentState.rotation a' = AgentState.rotation a ->
     py_list (AgentState.position a') = Return l ->
     exists out' fields,
       convert_motor_state zero (dict_set self agent_id a') = Return out' /\
       dict_get out' agent_id = Some (VDict fields) /\
       dict_get fields "position" = Some (VArray l)) /\
  (forall out agent_id a a' sensor_id s s' l,
     convert_motor_state zero self = Return out ->
     dict_get self agent_id = Some a ->
     dict_get (AgentState.sensors a) sensor_id = Some s ->
     AgentState.sensors a' = dict_set (AgentState.sensors a) sensor_id s' ->
     AgentState.position a' = AgentState.position a ->
     AgentState.rotation a' = AgentState.rotation a ->
     SensorState.rotation s' = SensorState.rotation s ->
     py_list (SensorState.position s') = Return l ->
     exists out' fields sens sfields,
       convert_motor_state zero (dict_set self agent_id a') = Return out' /\
       dict_get out' agent_id = Some (VDict fields) /\
       dict_get fields "sensors" = Some (VDict sens) /\
       dict_get sens sensor_id = Some (VDict sfields) /\
       dict_get sfields "position" = Some (VArray l)) /\
  (forall out agent_id a l,
     convert_motor_state zero self = Return out ->
     dict_get self agent_id = Some a ->
     py_list (AgentState.position a) = Return l ->
     exists fields,
       dict_get out agent_id = Some (VDict fields) /\
       dict_get fields "position" = Some (VArray l)).
Proof.
  split_and!.
  - apply convert_motor_state_defect.
  - intros out agent_id a a' l. apply convert_motor_state_any_position.
  - intros out agent_id a a' sensor_id s s' l.
    apply convert_motor_state_any_sensor_position.
  - intros out agent_id a l (_ & _ & Hrun)%convert_motor_state_Return Ha Hl.
    destruct (Hrun _ _ Ha) as (fields & sens & Hfields & Hout & _).
    eexists. split; [exact Hout|].
    by apply (pose_fields_position zero _ _ _ _ Hfields Hl).
Qed.

Lemma convert_motor_state_raises_witness :
  (has_pose no_rotation_state (PVector3 1 2 3)%Q PNone /\
   exists e position rotation,
     convert_motor_state 0%Q no_rotation_state = Raise e /\
     has_pose no_rotation_state position rotation /\
     pose_error position rotation = Some e /\
     (e = TypeError \/ e = AttributeError)) /\
  (dict_get example_state "agent_id_0" = Some example_agent /\
   exists out' fields,
     convert_motor_state 0%Q
       (dict_set example_state "agent_id_0"
          (AgentState.init [("sensor_id_0", example_sensor)]
             (PSeq [1; 2]%Q) (PQuat 0 0 0 1)%Q None)) = Return out' /\
     dict_get out' "agent_id_0" = Some (VDict fields) /\
     dict_get fields "position" = Some (VArray [1; 2]%Q)).
Proof.
  assert (has_pose no_rotation_state (PVector3 1 2 3)%Q PNone) as Hpose.
  { exists "agent_id_0", (AgentState.init [] (PVector3 1 2 3)%Q PNone None).
    split; [reflexivity|]. left. split; reflexivity. }
  split.
  - split; [exact Hpose|].
    apply (proj1 (convert_motor_state_raises Q 0%Q no_rotation_state)).
    exists (PVector3 1 2 3)%Q, PNone. split; [exact Hpose | reflexivity].
  - split; [reflexivity|].
    apply (proj1 (proj2 (convert_motor_state_raises Q 0%Q example_state))
             example_output "agent_id_0" example_agent);
      reflexivity.
Defined.

(** C6: the output has the agent identifiers of the input as its keys;
    the record of an agent has exactly the fields [position], [rotation]
    and [sensors]; [sensors] has the sensor identifiers of the agent as its
    keys, and the record of a sensor has exactly the fields [position] and
    [rotation], computed from the sensor's pose as the agent's two are from
    the agent's; in a store that holds the input, the output is a mapping
    that was not there before. *)
Theorem convert_motor_state_shape (num : Type) (zero : num)
    (self : MotorSystemState num) :
  state_ok self ->
  exists out, convert_motor_state zero self = Return out /\
    (forall k, k ∈ dict_keys out <-> k ∈ dict_keys self) /\
    NoDup (dict_keys out) /\
    (forall h ref, Store.holds_state h ref self ->
       exists h' l, Store.convert_motor_state zero ref h = (h', Return l) /\
         h !! l = None /\
         Store.models h' (length h) (Store.HRef l) (VDict out)) /\
    forall agent_id a, dict_get self agent_id = Some a ->
      exists record fields sens,
        dict_get out agent_id = Some (VDict record) /\
        dict_keys record = ["position"; "rotation"; "sensors"] /\
        pose_fields zero (AgentState.position a) (AgentState.rotation a)
          = Return fields /\
        record = fields ++ [("sensors", VDict sens)] /\
        (forall k, k ∈ dict_keys sens <-> k ∈ dict_keys (AgentState.sensors a)) /\
        NoDup (dict_keys sens) /\
        forall sensor_id s, dict_get (AgentState.sensors a) sensor_id = Some s ->
          exists sfields,
            dict_get sens sensor_id = Some (VDict sfields) /\
            dict_keys sfields = ["position"; "rotation"] /\
            pose_fields zero (SensorState.position s) (SensorState.rotation s)
              = Return sfields.
Proof.
  intros Hok. destruct (convert_motor_state_total zero self Hok) as [out Hrun].
  exists out. split; [done|].
  pose proof Hrun as (Hkeys & Hnd & Hagents)%convert_motor_state_Return.
  split_and!; [done | done | |].
  { intros h ref Hst. by apply (convert_motor_state_new_cells zero h ref self). }
  intros agent_id a Ha.
  destruct (Hagents _ _ Ha) as (fields & sens & Hfields & Hout & Hskeys & Hsnd & Hsens).
  exists (fields ++ [("sensors", VDict sens)]), fields, sens.
  split_and!; [done | | done | done | done | done |].
  - apply pose_fields_Return in Hfields as [_ Hk].
    unfold dict_keys in *. by rewrite map_app, Hk.
  - intros sensor_id s Hs. destruct (Hsens _ _ Hs) as (sfields & Hsf & Hget).
    exists sfields. split_and!; [done | | done].
    by apply pose_fields_Return in Hsf as [_ ?].
Qed.

Lemma example_state_ok : state_ok example_state.
Proof. by apply valid_state_ok. Qed.

Lemma convert_motor_state_shape_witness :
  state_ok example_state /\
  exists out, convert_motor_state 0%Q example_state = Return out /\
    (forall k, k ∈ dict_keys out <-> k ∈ dict_keys example_state).
Proof.
  split; [exact example_state_ok|].
  destruct (convert_motor_state_shape Q 0%Q example_state example_state_ok)
    as (out & Hrun & Hkeys & _).
  exists out. split; [exact Hrun | exact Hkeys].
Defined.

(** C9: an [AgentState] built without [motor_only_step] has the flag
    [False]. *)
Theorem motor_only_step_default (num : Type)
    (sensors : dict (SensorState.t num)) (position rotation : pyobj num) :
  AgentState.motor_only_step (AgentState.init sensors position rotation None)
    = false.
Proof. reflexivity. Qed.

Section Flag.
Context {num : Type}.
Variable zero : num.

Lemma agent_entry_but_flag (a1 a2 : AgentState.t num) :
  agent_eq_but_flag a1 a2 -> agent_entry zero a1 = agent_entry zero a2.
Proof. intros (Hs & Hp & Hr). unfold agent_entry. by rewrite Hs, Hp, Hr. Qed.

Lemma state_eq_but_flags_get (s1 s2 : MotorSystemState num) k :
  state_eq_but_flags s1 s2 ->
  option_Forall2 agent_eq_but_flag (dict_get s1 k) (dict_get s2 k).
Proof.
  induction 1 as [|[k1 a1] [k2 a2] s1 s2 [Hk Ha] _ IH]; simpl in *.
  - constructor.
  - subst k2. destruct (decide (k = k1)); [by constructor | done].
Qed.

Lemma state_eq_but_flags_keys (s1 s2 : MotorSystemState num) :
  state_eq_but_flags s1 s2 -> dict_keys s1 = dict_keys s2.
Proof.
  unfold dict_keys.
  induction 1 as [|[k1 a1] [k2 a2] s1 s2 [Hk Ha] _ IH]; simpl in *; congruence.
Qed.
End Flag.

(** C10: two states that differ in the [motor_only_step] flags of their
    agents only have the same outcome: the flag is not read and is not in
    the output. *)
Theorem convert_motor_state_ignores_flag (num : Type) (zero : num)
    (s1 s2 : MotorSystemState num) :
  state_eq_but_flags s1 s2 ->
  convert_motor_state zero s1 = convert_motor_state zero s2.
Proof.
  intros Heq. rewrite !convert_motor_state_entries. unfold map_items.
  rewrite <- (state_eq_but_flags_keys _ _ Heq).
  apply for_in_ext. intros agent_id acc _. unfold store_under. f_equal.
  pose proof (state_eq_but_flags_get _ _ agent_id Heq) as Hget.
  unfold dict_getitem. destruct Hget as [a1 a2 Ha|]; [|done].
  cbn. by apply agent_entry_but_flag.
Qed.

Lemma example_states_eq_but_flags :
  state_eq_but_flags example_state flagged_example_state.
Proof. repeat constructor. Qed.

Lemma convert_motor_state_ignores_flag_witness :
  state_eq_but_flags example_state flagged_example_state /\
  AgentState.motor_only_step example_agent = false /\
  convert_motor_state 0%Q example_state =
    convert_motor_state 0%Q flagged_example_state.
Proof.
  split_and!; [exact example_states_eq_but_flags | reflexivity |].
  apply (convert_motor_state_ignores_flag Q 0%Q).
  exact example_states_eq_but_flags.
Defined.

(** ** The simulator contract *)
Section BackendFacts.
Context {num Action Observations ObjectID SemanticID Scene : Type}.
Variable initial_scene : Scene.
Variable observe : Scene -> Observations.
Variable proprioception : Scene -> ProprioceptiveState num.
Variable count_objects : Scene -> nat.
Variable place_agent : AgentID -> AgentState.t num -> Scene -> option Scene.
Variable clear_objects : Scene -> Scene.
Variable registered : string -> bool.
Variable spawn :
  string -> option (@VectorXYZ num) -> option (@QuaternionWXYZ num) ->
  option (@VectorXYZ num) -> option SemanticID -> bool -> option ObjectID ->
  Scene -> Scene * (ObjectID * option SemanticID).
Variable perform : Action -> Scene -> option Scene.

Local Instance backend_simulator : Simulator num Action Observations ObjectID SemanticID
                       (lifecycle Scene) :=
  backend initial_scene observe proprioception count_objects place_agent
    clear_objects registered spawn perform.

Implicit Types (s : lifecycle Scene) (op : operation num Action ObjectID SemanticID)
  (ops : list (operation num Action ObjectID SemanticID)).

(** A closed simulator stays closed, and refuses every call but
    [close()]. *)
Lemma call_Closed op :
  call Closed op = (Closed, negb (is_close op)).
Proof. by destruct op. Qed.

Lemma run_Closed ops : run ops Closed = Closed.
Proof.
  unfold run. induction ops as [|op ops IH]; [done|].
  simpl. by rewrite call_Closed.
Qed.

(** An open simulator stays open until [close()]. *)
Lemma call_Open m scene op :
  is_closed (fst (call (Open m scene) op)) = is_close op.
Proof.
  destruct op; simpl; try done.
  - by destruct (place_agent _ _ _).
  - destruct (registered _); [|done]. by destruct (spawn _ _ _ _ _ _ _ _).
  - by destruct (perform _ _).
Qed.

Lemma run_is_closed ops s :
  is_closed (run ops s) = is_closed s || existsb is_close ops.
Proof.
  unfold run. revert s. induction ops as [|op ops IH]; intros s; simpl.
  - by rewrite orb_false_r.
  - rewrite IH. destruct s as [m scene|].
    + by rewrite call_Open.
    + by rewrite call_Closed.
Qed.

(** [reset()] on an open simulator. *)
Lemma reset_Open m scene :
  reset (Open m scene) = (fresh initial_scene, Return (observe initial_scene)).
Proof. reflexivity. Qed.

(** Among the calls, only [reset()] takes an active simulator back. *)
Lemma call_Active_reset scene op :
  macro (fst (call (Open Active scene) op)) = Some UninitializedOrReset ->
  is_reset op = true.
Proof.
  destruct op; simpl; try done.
  - by destruct (place_agent _ _ _).
  - destruct (registered _); [|done]. by destruct (spawn _ _ _ _ _ _ _ _).
  - by destruct (perform _ _).
Qed.

(** A name that is not registered makes [add_object] raise, and the
    simulator is left as it was. *)
Lemma add_object_unregistered s name position rotation scale semantic_id
    enable_physics primary_target_object :
  is_closed s = false -> registered name = false ->
  exists e,
    add_object s name position rotation scale semantic_id enable_physics
      primary_target_object = (s, Raise e).
Proof. intros Hs Hname. destruct s; [|done]. simpl. rewrite Hname. eauto. Qed.

(** C7: whatever calls were made on a freshly constructed simulator, as
    long as it has not been closed, [reset()] succeeds, leaves the
    simulator as a fresh one is and answers with the initial observations,
    as [reset()] on a fresh simulator does; an open simulator is in one
    of two macro-states, and [reset()] is the only call that takes an
    active one back to the other; [close()] closes for good: the
    simulator stays closed whatever is called, and every call but
    [close()] itself raises on it, [apply_action] among them. *)
Theorem reset_restores_initial ops :
  (is_closed (run ops (fresh initial_scene)) = existsb is_close ops) /\
  (existsb is_close ops = false ->
     reset (run ops (fresh initial_scene))
       = (fresh initial_scene, Return (observe initial_scene)) /\
     reset (run ops (fresh initial_scene)) = reset (fresh initial_scene)) /\
  (forall m : macro_state, m = UninitializedOrReset \/ m = Active) /\
  (forall scene op,
     macro (fst (call (Open Active scene) op)) = Some UninitializedOrReset ->
     is_reset op = true) /\
  (forall s, fst (close s) = Closed) /\
  (forall ops', run ops' (fst (close (run ops (fresh initial_scene)))) = Closed) /\
  (forall op, is_close op = false -> call Closed op = (Closed, true)) /\
  (forall action, exists e, apply_action Closed action = (Closed, Raise e)).
Proof.
  split_and!.
  - by rewrite run_is_closed.
  - intros Hopen.
    assert (is_closed (run ops (fresh initial_scene)) = false) as Hrun.
    { by rewrite run_is_closed, Hopen. }
    destruct (run ops (fresh initial_scene)) as [m scene|]; [|done].
    by rewrite reset_Open.
  - intros []; auto.
  - apply call_Active_reset.
  - done.
  - intros ops'. apply run_Closed.
  - intros op Hop. by rewrite call_Closed, Hop.
  - intros action. by exists RuntimeError.
Qed.
End BackendFacts.

Lemma reset_restores_initial_witness :
  existsb is_close example_history = false /\
  @reset _ _ _ _ _ _ counting_backend
    (@run _ _ _ _ _ _ counting_backend example_history (fresh 0))
  = (fresh 0, Return 0).
Proof.
  split; [reflexivity|].
  apply (reset_restores_initial (num:=Q) 0 (fun scene => scene) (fun _ => [])
           (fun scene => scene) (fun _ _ scene => Some scene) (fun _ => 0)
           (fun name => bool_decide (name = "cube"))
           (fun _ _ _ _ _ _ _ scene => (S scene, (scene, None)))
           (fun action scene => if decide (action <= 10) then Some scene else None)
           example_history).
  reflexivity.
Defined.

(** * Further properties of [convert_motor_state] *)

(** ** The method as a map over the items *)
Section Traversal.
Context {A B : Type}.
Implicit Types (F G : A -> result B) (l : list A).

Lemma encode_all_cons F x l :
  encode_all F (x :: l) = j ← F x; js ← encode_all F l; mret (j :: js).
Proof. reflexivity. Qed.

Lemma encode_all_ext F G l :
  Forall (fun x => F x = G x) l -> encode_all F l = encode_all G l.
Proof.
  induction 1 as [|x l Hx _ IH]; [done|].
  by rewrite !encode_all_cons, Hx, IH.
Qed.

Lemma encode_all_app F l1 l2 :
  encode_all F (l1 ++ l2) =
  js1 ← encode_all F l1; js2 ← encode_all F l2; mret (js1 ++ js2).
Proof.
  induction l1 as [|x l1 IH].
  - simpl. by destruct (encode_all F l2).
  - rewrite <- app_comm_cons, !encode_all_cons. destruct (F x) as [j|e]; [|done].
    rewrite !bind_Return, IH.
    destruct (encode_all F l1) as [js1|e]; [|done]. rewrite !bind_Return.
    by destruct (encode_all F l2).
Qed.
End Traversal.

Lemma encode_all_fmap {A A' B : Type} (F : A -> result B) (h : A' -> A) l :
  encode_all F (map h l) = encode_all (fun x => F (h x)) l.
Proof.
  induction l as [|x l IH]; [done|].
  rewrite map_cons, !encode_all_cons. by rewrite IH.
Qed.

Section NormalForm.
Context {V W : Type}.
Variable g : V -> result W.
Implicit Types (d : dict V) (out : dict W).

Local Ltac simpl_result :=
  cbn [mbind result_bind mret result_ret fmap result_fmap].

Lemma dict_set_fresh {U : Type} (d : dict U) k v :
  k ∉ dict_keys d -> dict_set d k v = d ++ [(k, v)].
Proof.
  unfold dict_keys. induction d as [|[k0 v0] d IH]; simpl; [done|].
  intros [Hne Hk]%not_elem_of_cons.
  by rewrite decide_False, IH.
Qed.

Lemma for_in_store_under_fresh (f : string -> result W) ks acc :
  NoDup ks -> (forall k, k ∈ ks -> k ∉ dict_keys acc) ->
  for_in ks (store_under f) acc =
  (fun kvs => acc ++ kvs) <$> encode_all (fun k => pair k <$> f k) ks.
Proof.
  intros Hnd. revert acc.
  induction Hnd as [|k ks Hk Hnd IH]; intros acc Hfresh.
  - simpl. by rewrite app_nil_r.
  - rewrite for_in_cons, encode_all_cons.
    destruct (f k) as [v|e] eqn:Hf.
    2: { by rewrite (store_under_Raise _ _ _ _ Hf). }
    rewrite (store_under_Return _ _ _ _ Hf). simpl_result.
    rewrite dict_set_fresh by (apply Hfresh, list_elem_of_here).
    rewrite IH.
    + destruct (encode_all _ ks) as [kvs|e]; [|done].
      simpl_result. by rewrite <- app_assoc.
    + intros k' Hk'. unfold dict_keys. rewrite map_app. simpl.
      rewrite elem_of_app, list_elem_of_singleton.
      intros [Hin| ->]; [|done].
      by apply (Hfresh k' (list_elem_of_further _ _ _ Hk')).
Qed.

(** On a dictionary without repeated keys the loop over [keys()] is the
    map over the items, in their order. *)
Lemma map_items_NoDup d :
  NoDup (dict_keys d) -> map_items g d = encode_all (map_item g) d.
Proof.
  intros Hnd. unfold map_items.
  rewrite for_in_store_under_fresh; [|done|].
  2: { intros k _. unfold dict_keys. simpl. apply not_elem_of_nil. }
  unfold dict_keys. rewrite encode_all_fmap.
  rewrite (encode_all_ext _ (map_item g)).
  - by destruct (encode_all (map_item g) d).
  - apply Forall_forall. intros [k x] Hin. unfold map_item. simpl.
    apply (dict_get_elem_of _ _ _ Hnd) in Hin.
    apply dict_getitem_Return in Hin. by rewrite Hin, bind_Return.
Qed.

Lemma map_item_pair k x : map_item g (k, x) = pair k <$> g x.
Proof. reflexivity. Qed.

Lemma encode_all_item_keys d out :
  encode_all (map_item g) d = Return out -> dict_keys out = dict_keys d.
Proof.
  unfold dict_keys. revert out. induction d as [|[k x] d IH]; intros out.
  - by intros [= <-].
  - rewrite encode_all_cons, map_item_pair.
    destruct (g x) as [v|e]; simpl_result; [|congruence].
    destruct (encode_all (map_item g) d) as [o|e]; simpl_result; [|congruence].
    intros [= <-]. simpl. f_equal. by apply IH.
Qed.

Lemma encode_all_item_set d out k x v :
  encode_all (map_item g) d = Return out -> g x = Return v ->
  encode_all (map_item g) (dict_set d k x) = Return (dict_set out k v).
Proof.
  intros Hd Hx. revert out Hd. induction d as [|[k0 x0] d IH]; intros out.
  - intros [= <-]. simpl. by rewrite map_item_pair, Hx.
  - rewrite encode_all_cons, map_item_pair.
    destruct (g x0) as [v0|e] eqn:Hx0; simpl_result; [|congruence].
    destruct (encode_all (map_item g) d) as [o|e] eqn:Hd; simpl_result;
      [|congruence].
    intros [= <-]. simpl.
    destruct (decide (k = k0)) as [->|Hne].
    + by rewrite encode_all_cons, Hd, map_item_pair, Hx.
    + by rewrite encode_all_cons, (IH o eq_refl), map_item_pair, Hx0.
Qed.
End NormalForm.

Section Composition.
Context {num : Type}.
Variable zero : num.
Implicit Types (self : MotorSystemState num) (a : AgentState.t num)
  (s : SensorState.t num) (out : dict (value num)).

Local Ltac simpl_result :=
  cbn [mbind result_bind mret result_ret fmap result_fmap].

(** On a state without repeated identifiers the method maps
    [agent_entry] over the agents, in their order. *)
Lemma convert_motor_state_items self :
  NoDup (dict_keys self) ->
  convert_motor_state zero self = encode_all (map_item (agent_entry zero)) self.
Proof. intros Hnd. by rewrite convert_motor_state_entries, map_items_NoDup. Qed.

Lemma convert_motor_state_single k a :
  convert_motor_state zero [(k, a)] = (fun v => [(k, v)]) <$> agent_entry zero a.
Proof.
  rewrite convert_motor_state_items by apply NoDup_singleton.
  rewrite encode_all_cons, map_item_pair.
  by destruct (agent_entry zero a).
Qed.

Lemma record_sensors (fields : dict (value num)) (sens : value num) :
  dict_keys fields = ["position"; "rotation"] ->
  dict_get (fields ++ [("sensors", sens)]) "sensors" = Some sens.
Proof.
  intros Hkeys. rewrite dict_get_app.
  assert (dict_get fields "sensors" = None) as ->; [|done].
  apply dict_get_None. rewrite Hkeys.
  intros [?|[?|?%elem_of_nil]%elem_of_cons]%elem_of_cons; done.
Qed.

Lemma dict_alike_keys {V : Type} (R : V -> V -> Prop) (d1 d2 : dict V) :
  dict_alike R d1 d2 -> dict_keys d1 = dict_keys d2.
Proof.
  unfold dict_keys.
  induction 1 as [|[k1 x1] [k2 x2] d1 d2 [Hk _] _ IH]; simpl in *; congruence.
Qed.

Lemma dict_alike_get {V : Type} (R : V -> V -> Prop) (d1 d2 : dict V) k :
  dict_alike R d1 d2 -> option_Forall2 R (dict_get d1 k) (dict_get d2 k).
Proof.
  induction 1 as [|[k1 x1] [k2 x2] d1 d2 [Hk Hx] _ IH]; simpl in *.
  - constructor.
  - subst k2. destruct (decide (k = k1)); [by constructor | done].
Qed.

Lemma map_items_alike {V W : Type} (R : V -> V -> Prop) (g : V -> result W)
    (d1 d2 : dict V) :
  (forall x1 x2, R x1 x2 -> g x1 = g x2) ->
  dict_alike R d1 d2 -> map_items g d1 = map_items g d2.
Proof.
  intros Hg Hd. unfold map_items. rewrite <- (dict_alike_keys _ _ _ Hd).
  apply for_in_ext. intros k acc _. unfold store_under. f_equal.
  pose proof (dict_alike_get _ _ _ k Hd) as Hget. unfold dict_getitem.
  destruct Hget as [x1 x2 Hx|]; [|done]. simpl_result. by apply Hg.
Qed.

Lemma sensor_entry_alike s1 s2 :
  sensor_alike s1 s2 -> sensor_entry zero s1 = sensor_entry zero s2.
Proof.
  intros [Hp Hr]. unfold sensor_entry, pose_fields.
  unfold position_alike in Hp. by rewrite Hp, Hr.
Qed.

Lemma agent_entry_alike a1 a2 :
  agent_alike a1 a2 -> agent_entry zero a1 = agent_entry zero a2.
Proof.
  intros (Hs & Hp & Hr). unfold agent_entry, sensors_entry, pose_fields.
  rewrite (map_items_alike _ _ _ _ sensor_entry_alike Hs).
  unfold position_alike in Hp. by rewrite Hp, Hr.
Qed.

(** The sensors come first: a sensor that fails decides the exception of
    its agent. *)
Lemma agent_entry_sensor_first a ss1 sensor_id s ss2 e :
  AgentState.sensors a = ss1 ++ (sensor_id, s) :: ss2 ->
  sensor_id ∉ dict_keys ss1 ->
  (forall k s', dict_get ss1 k = Some s' ->
     pose_ok (SensorState.position s') (SensorState.rotation s') = true) ->
  pose_error (SensorState.position s) (SensorState.rotation s) = Some e ->
  agent_entry zero a = Raise e.
Proof.
  intros Hsensors Hfresh Hok He. unfold agent_entry, sensors_entry, map_items.
  rewrite Hsensors. unfold dict_keys. rewrite map_app.
  set (f := fun k => dict_getitem (ss1 ++ (sensor_id, s) :: ss2) k
                     ≫= sensor_entry zero).
  assert (forall ks1 ks2 acc (body : string -> dict (value num) -> _),
            for_in (ks1 ++ ks2) body acc = for_in ks1 body acc ≫= for_in ks2 body)
    as Happ.
  { induction ks1 as [|k ks1 IH]; intros ks2 acc body.
    - by destruct (for_in ks2 body acc).
    - rewrite <- app_comm_cons, !for_in_cons.
      destruct (body k acc) as [acc'|e']; [|done]. rewrite !bind_Return.
      apply IH. }
  rewrite Happ.
  destruct (for_in_set_total f (map fst ss1) []) as [acc Hacc].
  { intros k [x Hx]%(dict_get_is_Some ss1). unfold f.
    assert (dict_get (ss1 ++ (sensor_id, s) :: ss2) k = Some x) as Hget.
    { by rewrite dict_get_app, Hx. }
    apply dict_getitem_Return in Hget. rewrite Hget, bind_Return.
    apply Hok, pose_ok_error in Hx.
    destruct (pose_fields_total zero _ _ Hx) as [fields Hfields].
    unfold sensor_entry. rewrite Hfields. by eexists. }
  rewrite Hacc, bind_Return. simpl map. rewrite for_in_cons.
  rewrite (store_under_Raise f sensor_id acc e); [done|].
  unfold f.
  assert (dict_get (ss1 ++ (sensor_id, s) :: ss2) sensor_id = Some s) as Hget.
  { rewrite dict_get_app. apply dict_get_None in Hfresh. rewrite Hfresh.
    simpl. by rewrite decide_True. }
  apply dict_getitem_Return in Hget. rewrite Hget, bind_Return.
  unfold sensor_entry.
  pose proof (pose_fields_spec zero (SensorState.position s)
                (SensorState.rotation s)) as Hspec.
  rewrite He in Hspec. by rewrite Hspec.
Qed.
End Composition.

(** X1: on a state whose dictionaries have no identifier twice, as Python
    dictionaries do, the output lists the agents in the order of the input
    and, under each agent, the sensors in the order of the agent's
    [sensors]. *)
Theorem convert_motor_state_keeps_order (num : Type) (zero : num)
    (self : MotorSystemState num) :
  NoDup (dict_keys self) -> state_ok self ->
  exists out, convert_motor_state zero self = Return out /\
    dict_keys out = dict_keys self /\
    forall agent_id a, dict_get self agent_id = Some a ->
      NoDup (dict_keys (AgentState.sensors a)) ->
      exists record sens,
        dict_get out agent_id = Some (VDict record) /\
        dict_get record "sensors" = Some (VDict sens) /\
        dict_keys sens = dict_keys (AgentState.sensors a).
Proof.
  intros Hnd Hok. destruct (convert_motor_state_total zero self Hok) as [out Hrun].
  exists out. split; [done|]. split.
  - rewrite convert_motor_state_items in Hrun by done.
    by apply encode_all_item_keys in Hrun.
  - intros agent_id a Ha Hsnd.
    rewrite convert_motor_state_entries in Hrun.
    apply map_items_Return in Hrun as (Hin & _).
    destruct (Hin _ _ Ha) as (v & Hv & Hout).
    apply agent_entry_Return in Hv as (fields & sens & Hfields & Hsens & ->).
    exists (fields ++ [("sensors", VDict sens)]), sens. split_and!; [done | |].
    + apply record_sensors. by apply pose_fields_Return in Hfields as [_ ?].
    + unfold sensors_entry in Hsens. rewrite map_items_NoDup in Hsens by done.
      by apply encode_all_item_keys in Hsens.
Qed.

Lemma two_agents_state_ok : state_ok two_agents_state.
Proof. by apply valid_state_ok. Qed.

Lemma two_agents_state_NoDup : NoDup (dict_keys two_agents_state).
Proof. apply (bool_decide_unpack _). by vm_compute. Qed.

Lemma convert_motor_state_keeps_order_witness :
  NoDup (dict_keys two_agents_state) /\
  exists out, convert_motor_state 0%Q two_agents_state = Return out /\
    dict_keys out = ["agent_id_0"; "agent_id_1"].
Proof.
  split; [exact two_agents_state_NoDup|].
  destruct (convert_motor_state_keeps_order Q 0%Q two_agents_state
              two_agents_state_NoDup two_agents_state_ok) as (out & Hrun & Hkeys & _).
  exists out. split; [exact Hrun | exact Hkeys].
Defined.

(** X2: storing an agent in a state and converting is converting and
    storing the agent's record: if the state converts to [out] and the
    agent alone converts to the record [v], then after [self[k] = a] the
    state converts to [out] after [out[k] = v], whether [k] is new or
    replaces an agent. *)
Theorem convert_motor_state_setitem (num : Type) (zero : num)
    (self : MotorSystemState num) (out : dict (value num))
    (k : AgentID) (a : AgentState.t num) (v : value num) :
  NoDup (dict_keys self) ->
  convert_motor_state zero self = Return out ->
  convert_motor_state zero [(k, a)] = Return [(k, v)] ->
  convert_motor_state zero (dict_set self k a) = Return (dict_set out k v).
Proof.
  intros Hnd Hrun Hone.
  rewrite convert_motor_state_single in Hone.
  apply fmap_Return_inv in Hone as (v' & Hv & [= ->]).
  rewrite convert_motor_state_items by by apply dict_keys_NoDup_set.
  rewrite convert_motor_state_items in Hrun by done.
  by apply encode_all_item_set.
Qed.

Lemma example_state_NoDup : NoDup (dict_keys example_state).
Proof. apply (bool_decide_unpack _). by vm_compute. Qed.

Lemma convert_motor_state_setitem_witness :
  NoDup (dict_keys example_state) /\
  exists v,
    convert_motor_state 0%Q (dict_set example_state "agent_id_1" second_agent)
      = Return (dict_set example_output "agent_id_1" v).
Proof.
  split; [exact example_state_NoDup|].
  eexists.
  apply (convert_motor_state_setitem Q 0%Q example_state example_output
           "agent_id_1" second_agent);
    [exact example_state_NoDup | reflexivity | reflexivity].
Defined.

(** X3: converting two states put one after the other, with no agent in
    both, is converting the first, then the second, and putting the two
    outputs one after the other; the exception of the first one that fails
    is the exception of the whole, and nothing after it is looked at. *)
Theorem convert_motor_state_app (num : Type) (zero : num)
    (s1 s2 : MotorSystemState num) :
  NoDup (dict_keys (s1 ++ s2)) ->
  convert_motor_state zero (s1 ++ s2) =
    (o1 ← convert_motor_state zero s1;
     o2 ← convert_motor_state zero s2;
     mret (o1 ++ o2)).
Proof.
  intros Hnd. pose proof Hnd as Hnd'.
  unfold dict_keys in Hnd'. rewrite map_app in Hnd'.
  apply NoDup_app in Hnd' as (Hnd1 & _ & Hnd2).
  rewrite !convert_motor_state_items by done.
  apply encode_all_app.
Qed.

Lemma convert_motor_state_app_witness :
  NoDup (dict_keys (example_state ++ [("agent_id_1", defective_agent)])) /\
  convert_motor_state 0%Q (example_state ++ [("agent_id_1", defective_agent)])
    = Raise TypeError.
Proof.
  assert (NoDup (dict_keys (example_state ++ [("agent_id_1", defective_agent)])))
    as Hnd by (apply (bool_decide_unpack _); by vm_compute).
  split; [exact Hnd|].
  rewrite (convert_motor_state_app Q 0%Q example_state
             [("agent_id_1", defective_agent)] Hnd).
  reflexivity.
Defined.

(** X4: the output depends on a position through its components only: two
    states that differ only in that positions are given as a list, a tuple,
    an array or a vector with the same components (or are both not
    iterable) have the same outcome. *)
Theorem convert_motor_state_position_kind (num : Type) (zero : num)
    (s1 s2 : MotorSystemState num) :
  state_alike s1 s2 ->
  convert_motor_state zero s1 = convert_motor_state zero s2.
Proof.
  intros Halike. rewrite !convert_motor_state_entries.
  apply (map_items_alike agent_alike); [|done].
  apply agent_entry_alike.
Qed.

Lemma example_state_alike : state_alike example_state example_state_plain.
Proof. repeat constructor. Qed.

Lemma convert_motor_state_position_kind_witness :
  state_alike example_state example_state_plain /\
  convert_motor_state 0%Q example_state_plain = Return example_output.
Proof.
  split; [exact example_state_alike|].
  rewrite <- (convert_motor_state_position_kind Q 0%Q example_state
                example_state_plain example_state_alike).
  reflexivity.
Defined.

Lemma state_okb_ok {num : Type} (self : MotorSystemState num) :
  state_okb self = true -> state_ok self.
Proof.
  intros Hok position rotation (agent_id & a & Ha & Hpose).
  apply (dict_get_forallb agent_okb _ _ _ Hok) in Ha.
  unfold agent_okb in Ha. apply andb_true_iff in Ha as [Hpa Hs].
  destruct Hpose as [[-> ->]|(sensor_id & s & Hget & -> & ->)]; [done|].
  by apply (dict_get_forallb
              (fun s => pose_ok (SensorState.position s) (SensorState.rotation s))
              _ _ _ Hs) in Hget.
Qed.

(** X5: within an agent the sensors are converted first, in their order,
    and before the agent's own pose is looked at: after agents that
    convert, an agent whose first sensor with a defective pose raises [e]
    makes the call raise [e], whatever its own position and rotation, its
    later sensors and the agents after it. *)
Theorem convert_motor_state_sensor_first (num : Type) (zero : num)
    (s1 s2 : MotorSystemState num) (o1 : dict (value num))
    (k : AgentID) (a : AgentState.t num)
    (ss1 ss2 : dict (SensorState.t num)) (sensor_id : SensorID)
    (s : SensorState.t num) (e : error) :
  NoDup (dict_keys (s1 ++ (k, a) :: s2)) ->
  convert_motor_state zero s1 = Return o1 ->
  AgentState.sensors a = ss1 ++ (sensor_id, s) :: ss2 ->
  sensor_id ∉ dict_keys ss1 ->
  (forall k' s', dict_get ss1 k' = Some s' ->
     pose_ok (SensorState.position s') (SensorState.rotation s') = true) ->
  pose_error (SensorState.position s) (SensorState.rotation s) = Some e ->
  convert_motor_state zero (s1 ++ (k, a) :: s2) = Raise e.
Proof.
  intros Hnd Hs1 Hsensors Hfresh Hok He.
  pose proof (agent_entry_sensor_first zero a ss1 sensor_id s ss2 e
                Hsensors Hfresh Hok He) as Hentry.
  pose proof Hnd as Hnd'. unfold dict_keys in Hnd'. rewrite map_app in Hnd'.
  apply NoDup_app in Hnd' as (Hnd1 & _ & _).
  rewrite convert_motor_state_items by done.
  rewrite convert_motor_state_items in Hs1 by done.
  rewrite encode_all_app, Hs1, bind_Return.
  by rewrite encode_all_cons, map_item_pair, Hentry.
Qed.

Lemma convert_motor_state_sensor_first_witness :
  pose_error (PNone : pyobj Q) (PQuat 1 0 0 0)%Q = Some TypeError /\
  pose_error (PVector3 1 2 3)%Q (PNone : pyobj Q) = Some AttributeError /\
  convert_motor_state 0%Q (example_state ++ [("agent_id_1", defective_agent)])
    = Raise TypeError.
Proof.
  split_and!; [reflexivity | reflexivity |].
  apply (convert_motor_state_sensor_first Q 0%Q example_state [] example_output
           "agent_id_1" defective_agent [] [] "sensor_id_0"
           (SensorState.mk PNone (PQuat 1 0 0 0)%Q) TypeError).
  - apply (bool_decide_unpack _). by vm_compute.
  - reflexivity.
  - reflexivity.
  - apply not_elem_of_nil.
  - intros k' s' Hget. discriminate Hget.
  - reflexivity.
Defined.

(** X6: a rotation given as an array of floats is not refused: the
    [rotation] of the output is then the list made of the whole array
    followed by one [0.0] for each of its components, so one element
    longer than the array. *)
Theorem convert_motor_state_array_rotation (num : Type) (zero : num)
    (self : MotorSystemState num) (agent_id : AgentID) (a : AgentState.t num)
    (l : list num) :
  state_ok self ->
  dict_get self agent_id = Some a ->
  AgentState.rotation a = PArray l ->
  exists out record,
    convert_motor_state zero self = Return out /\
    dict_get out agent_id = Some (VDict record) /\
    dict_get record "rotation"
      = Some (VList (VArray l :: map (fun _ => VFloat zero) l)) /\
    length (VArray l :: map (fun _ => VFloat zero) l) = S (length l).
Proof.
  intros Hok Ha Hr.
  destruct (convert_motor_state_total zero self Hok) as [out Hrun].
  pose proof Hrun as (_ & _ & Hagents)%convert_motor_state_Return.
  destruct (Hagents _ _ Ha) as (fields & sens & Hfields & Hout & _).
  exists out, (fields ++ [("sensors", VDict sens)]).
  split_and!; [done | done | |].
  - pose proof (pose_fields_spec zero (AgentState.position a) (AgentState.rotation a))
      as Hspec.
    apply pose_fields_Return in Hfields as Herr. destruct Herr as [Herr _].
    rewrite Herr in Hspec.
    destruct Hspec as (pl & real & imag & _ & Hreal & Himag & Hf).
    rewrite Hf in Hfields. injection Hfields as <-.
    rewrite Hr in Hreal, Himag. simpl in Hreal, Himag.
    injection Hreal as <-. injection Himag as <-.
    simpl. by rewrite map_map.
  - simpl. by rewrite length_map.
Qed.

Lemma convert_motor_state_array_rotation_witness :
  state_ok array_rotation_state /\
  exists out record,
    convert_motor_state 0%Q array_rotation_state = Return out /\
    dict_get out "agent_id_0" = Some (VDict record) /\
    dict_get record "rotation"
      = Some (VList [VArray [1; 0; 0; 0]; VFloat 0; VFloat 0; VFloat 0; VFloat 0]%Q).
Proof.
  assert (state_ok array_rotation_state) as Hok by (by apply state_okb_ok).
  split; [exact Hok|].
  destruct (convert_motor_state_array_rotation Q 0%Q array_rotation_state
              "agent_id_0"
              (AgentState.init [] (PVector3 1 2 3)%Q (PArray [1; 0; 0; 0])%Q None)
              [1; 0; 0; 0]%Q Hok eq_refl eq_refl)
    as (out & record & Hrun & Hout & Hrot & _).
  exists out, record. split_and!; [exact Hrun | exact Hout | exact Hrot].
Defined.

(** X7: on a state of the data model (every position a 3-vector, every
    rotation a quaternion) two calls give two outputs that share nothing:
    the mappings of the first output are cells of the store the first call
    leaves; the second call leaves every one of them as it was and builds
    its own mappings from cells that did not exist then; every leaf is a
    list of floats or an array of floats, and no list holds an array, as
    the [rotation] of the output does when a rotation is an array, whose
    [real] is that array itself.  Both outputs stand for the same value. *)
Theorem convert_motor_state_twice (num : Type) (zero : num)
    (h : Store.store num) (ref : Store.hval num)
    (self : MotorSystemState num) (out : dict (value num)) :
  valid_state self = true ->
  Store.holds_state h ref self ->
  convert_motor_state zero self = Return out ->
  mapping_of numeric_seq (VDict out) = true /\
  exists h1 l1 h2 l2,
    Store.convert_motor_state zero ref h = (h1, Return l1) /\
    Store.convert_motor_state zero ref h1 = (h2, Return l2) /\
    l1 < length h1 /\ length h1 <= l2 /\
    Store.models h1 (length h) (Store.HRef l1) (VDict out) /\
    (forall l c, h1 !! l = Some c -> h2 !! l = Some c) /\
    Store.models h2 (length h) (Store.HRef l1) (VDict out) /\
    Store.models h2 (length h1) (Store.HRef l2) (VDict out).
Proof.
  intros Hvalid Hst Hrun.
  split; [by apply (convert_motor_state_numeric zero self)|].
  destruct (convert_motor_state_new_cells zero h ref self out Hst Hrun)
    as (h1 & l1 & Hrun1 & _ & Hm1).
  assert (forall l c, h !! l = Some c -> h1 !! l = Some c) as Hsub1.
  { intros l c Hl.
    pose proof (keeps_lookup _ _ _ _ _
                  (keeps_convert_motor_state zero (length h) ref) Hl) as Hk.
    by rewrite Hrun1 in Hk. }
  assert (Store.holds_state h1 ref self) as Hst1 by by eapply holds_state_mono.
  destruct (convert_motor_state_new_cells zero h1 ref self out Hst1 Hrun)
    as (h2 & l2 & Hrun2 & Hnew2 & Hm2).
  assert (forall l c, h1 !! l = Some c -> h2 !! l = Some c) as Hsub2.
  { intros l c Hl.
    pose proof (keeps_lookup _ _ _ _ _
                  (keeps_convert_motor_state zero (length h1) ref) Hl) as Hk.
    by rewrite Hrun2 in Hk. }
  exists h1, l1, h2, l2. split_and!; [done | done | | | done | done | | done].
  - inversion Hm1; subst. by eapply lookup_lt_Some.
  - by apply lookup_ge_None.
  - eapply models_mono; [reflexivity | | exact Hm1]. intros l c _. apply Hsub2.
Qed.

Lemma example_store_holds :
  Store.holds_state Store.example_store (Store.HRef 3) example_state.
Proof.
  exists 3, [("agent_id_0", Store.HRef 2)]. split_and!; [done | done |].
  repeat constructor. exists 2, (Store.HRef 1). split_and!; [done | done |].
  exists 1, [("sensor_id_0", Store.HRef 0)]. split_and!; [done | done |].
  repeat constructor. by exists 0.
Qed.

Lemma convert_motor_state_twice_witness :
  valid_state example_state = true /\
  Store.holds_state Store.example_store (Store.HRef 3) example_state /\
  mapping_of numeric_seq (VDict example_output) = true /\
  exists h1 l1 h2 l2,
    Store.convert_motor_state 0%Q (Store.HRef 3) Store.example_store
      = (h1, Return l1) /\
    Store.convert_motor_state 0%Q (Store.HRef 3) h1 = (h2, Return l2) /\
    l1 < length h1 /\ length h1 <= l2.
Proof.
  split; [reflexivity|]. split; [exact example_store_holds|].
  destruct (convert_motor_state_twice Q 0%Q Store.example_store (Store.HRef 3)
              example_state example_output eq_refl example_store_holds eq_refl)
    as (Hleaves & h1 & l1 & h2 & l2 & Hrun1 & Hrun2 & Hlt & Hle & _).
  split; [exact Hleaves|].
  exists h1, l1, h2, l2. split_and!; [exact Hrun1 | exact Hrun2 | exact Hlt | exact Hle].
Defined.

Section Lossless.
Context {num : Type}.
Variable zero : num.

Local Ltac simpl_result :=
  cbn [mbind result_bind mret result_ret fmap result_fmap].

Lemma encode_all_inj {A B : Type} (F : A -> result B) (l1 l2 : list A) o :
  (forall x1 x2 j, x1 ∈ l1 -> x2 ∈ l2 ->
     F x1 = Return j -> F x2 = Return j -> x1 = x2) ->
  encode_all F l1 = Return o -> encode_all F l2 = Return o -> l1 = l2.
Proof.
  revert l2 o. induction l1 as [|x1 l1 IH]; intros l2 o Hinj.
  - intros [= <-]. destruct l2 as [|x2 l2]; [done|].
    rewrite encode_all_cons. destruct (F x2); simpl_result; [|congruence].
    destruct (encode_all F l2); simpl_result; by intros [=].
  - rewrite encode_all_cons. destruct (F x1) as [j1|] eqn:H1;
      simpl_result; [|congruence].
    destruct (encode_all F l1) as [o1|] eqn:Hl1; simpl_result; [|congruence].
    intros [= <-]. destruct l2 as [|x2 l2]; [by intros [=]|].
    rewrite encode_all_cons. destruct (F x2) as [j2|] eqn:H2;
      simpl_result; [|congruence].
    destruct (encode_all F l2) as [o2|] eqn:Hl2; simpl_result; [|congruence].
    intros [= -> ->]. f_equal.
    + apply (Hinj x1 x2 j1); [apply list_elem_of_here | apply list_elem_of_here | done | done].
    + apply (IH l2 o1); [|done|done].
      intros y1 y2 j Hy1 Hy2. apply Hinj; by apply list_elem_of_further.
Qed.

Lemma valid_sensor_entry_inj (s1 s2 : SensorState.t num) v :
  valid_sensor s1 = true -> valid_sensor s2 = true ->
  sensor_entry zero s1 = Return v -> sensor_entry zero s2 = Return v -> s1 = s2.
Proof.
  destruct s1 as [p1 r1], s2 as [p2 r2]. unfold valid_sensor. simpl.
  intros [Hp1 Hr1]%andb_true_iff [Hp2 Hr2]%andb_true_iff.
  destruct p1; try done. destruct r1; try done.
  destruct p2; try done. destruct r2; try done.
  unfold sensor_entry. simpl. intros [= <-] [= -> -> -> -> -> -> ->]. done.
Qed.

Lemma valid_sensors_inj (ss1 ss2 : dict (SensorState.t num)) sens :
  NoDup (dict_keys ss1) -> NoDup (dict_keys ss2) ->
  forallb (fun kv => valid_sensor (snd kv)) ss1 = true ->
  forallb (fun kv => valid_sensor (snd kv)) ss2 = true ->
  sensors_entry zero ss1 = Return sens -> sensors_entry zero ss2 = Return sens ->
  ss1 = ss2.
Proof.
  intros Hnd1 Hnd2 Hv1 Hv2. unfold sensors_entry.
  rewrite !map_items_NoDup by done.
  apply encode_all_inj. intros [k1 s1] [k2 s2] [k v] Hin1 Hin2.
  rewrite !map_item_pair.
  intros (v1 & H1 & [= Hk1 Hw1])%fmap_Return_inv
         (v2 & H2 & [= Hk2 Hw2])%fmap_Return_inv.
  subst k v v2. f_equal; [done|].
  apply (valid_sensor_entry_inj s1 s2 v1); [| |done|done].
  - rewrite forallb_forall in Hv1. apply (Hv1 (k1, s1)). by apply list_elem_of_In.
  - rewrite forallb_forall in Hv2. apply (Hv2 (k2, s2)). by apply list_elem_of_In.
Qed.

Lemma valid_agent_entry_inj (a1 a2 : AgentState.t num) v :
  NoDup (dict_keys (AgentState.sensors a1)) ->
  NoDup (dict_keys (AgentState.sensors a2)) ->
  valid_agent a1 = true -> valid_agent a2 = true ->
  agent_entry zero a1 = Return v -> agent_entry zero a2 = Return v ->
  agent_eq_but_flag a1 a2.
Proof.
  intros Hnd1 Hnd2 Hv1 Hv2.
  unfold valid_agent in Hv1, Hv2.
  apply andb_true_iff in Hv1 as [[Hp1 Hr1]%andb_true_iff Hs1].
  apply andb_true_iff in Hv2 as [[Hp2 Hr2]%andb_true_iff Hs2].
  intros (f1 & sens1 & Hf1 & Hsens1 & ->)%agent_entry_Return
         (f2 & sens2 & Hf2 & Hsens2 & Heq)%agent_entry_Return.
  destruct (AgentState.position a1) as [| | | |x1 y1 z1|] eqn:Ep1; try done.
  destruct (AgentState.rotation a1) as [| | | | |w1 i1 j1 k1] eqn:Er1; try done.
  destruct (AgentState.position a2) as [| | | |x2 y2 z2|] eqn:Ep2; try done.
  destruct (AgentState.rotation a2) as [| | | | |w2 i2 j2 k2] eqn:Er2; try done.
  injection Hf1 as <-. injection Hf2 as <-.
  injection Heq as -> -> -> -> -> -> -> ->.
  unfold agent_eq_but_flag. rewrite Ep1, Ep2, Er1, Er2.
  split_and!; [|done|done].
  by apply (valid_sensors_inj _ _ sens2).
Qed.

Lemma keys_unique_get (self : MotorSystemState num) k a :
  keys_unique self -> (k, a) ∈ self -> NoDup (dict_keys (AgentState.sensors a)).
Proof.
  intros [_ Hall] Hin. rewrite Forall_forall in Hall. by apply (Hall (k, a)).
Qed.

(** X8: on states of the data model (every position a 3-vector, every
    rotation a quaternion; no identifier twice) the conversion loses nothing
    but the flags: two such states with the same result have the same agents
    in the same order, with the same sensors, positions and rotations. *)
Theorem convert_motor_state_lossless (s1 s2 : MotorSystemState num) :
  keys_unique s1 -> keys_unique s2 ->
  valid_state s1 = true -> valid_state s2 = true ->
  convert_motor_state zero s1 = convert_motor_state zero s2 ->
  state_eq_but_flags s1 s2.
Proof.
  intros Hu1 Hu2 Hv1 Hv2 Heq.
  destruct (convert_motor_state_total zero s1) as [out Hrun1];
    [by apply valid_state_ok|].
  pose proof Hrun1 as Hrun2. rewrite Heq in Hrun2.
  rewrite convert_motor_state_items in Hrun1 by apply Hu1.
  rewrite convert_motor_state_items in Hrun2 by apply Hu2.
  clear Heq. revert s2 out Hu2 Hv2 Hrun1 Hrun2.
  induction s1 as [|[k1 a1] s1 IH]; intros s2 out Hu2 Hv2.
  - intros [= <-]. destruct s2 as [|[k2 a2] s2]; [constructor|].
    rewrite encode_all_cons, map_item_pair.
    destruct (agent_entry zero a2); simpl_result; [|congruence].
    destruct (encode_all _ s2); simpl_result; by intros [=].
  - rewrite encode_all_cons, map_item_pair.
    destruct (agent_entry zero a1) as [v1|] eqn:He1; simpl_result; [|congruence].
    destruct (encode_all _ s1) as [o1|] eqn:Hs1; simpl_result; [|congruence].
    intros [= <-]. destruct s2 as [|[k2 a2] s2]; [by intros [=]|].
    rewrite encode_all_cons, map_item_pair.
    destruct (agent_entry zero a2) as [v2|] eqn:He2; simpl_result; [|congruence].
    destruct (encode_all _ s2) as [o2|] eqn:Hs2; simpl_result; [|congruence].
    intros [= -> -> ->].
    simpl in Hv1, Hv2.
    apply andb_true_iff in Hv1 as [Hva1 Hv1].
    apply andb_true_iff in Hv2 as [Hva2 Hv2].
    constructor.
    + split; [done|]. simpl.
      apply (valid_agent_entry_inj a1 a2 v1); try done.
      * apply (keys_unique_get _ k1 a1 Hu1), list_elem_of_here.
      * apply (keys_unique_get _ k1 a2 Hu2), list_elem_of_here.
    + destruct Hu1 as [Hnd1 Hall1], Hu2 as [Hnd2 Hall2].
      assert (keys_unique s1) as Hu1'
        by (split; [by apply NoDup_cons in Hnd1 as [_ ?] | by inversion Hall1]).
      assert (keys_unique s2) as Hu2'
        by (split; [by apply NoDup_cons in Hnd2 as [_ ?] | by inversion Hall2]).
      eapply IH; eauto.
Qed.
End Lossless.

Lemma example_state_keys_unique : keys_unique example_state.
Proof.
  split; [apply example_state_NoDup|].
  repeat constructor; simpl; by intros ?%elem_of_nil.
Qed.

Lemma flagged_example_state_keys_unique : keys_unique flagged_example_state.
Proof.
  split; [apply (bool_decide_unpack _); by vm_compute|].
  repeat constructor; simpl; by intros ?%elem_of_nil.
Qed.

Lemma convert_motor_state_lossless_witness :
  keys_unique example_state /\ keys_unique flagged_example_state /\
  valid_state example_state = true /\ valid_state flagged_example_state = true /\
  convert_motor_state 0%Q example_state
    = convert_motor_state 0%Q flagged_example_state /\
  state_eq_but_flags example_state flagged_example_state.
Proof.
  split_and!;
    [apply example_state_keys_unique | apply flagged_example_state_keys_unique
    | reflexivity | reflexivity | reflexivity |].
  apply (convert_motor_state_lossless 0%Q);
    [apply example_state_keys_unique | apply flagged_example_state_keys_unique
    | reflexivity | reflexivity | reflexivity].
Defined.
